(** * Wemos24128: NeoPixel colour helpers and pixel driver

    A shallow embedding of [Colors.h] and [NeoPixelBus_Driver.h].

    Machine integers are carried by [Z] with the conversions of the target
    (ESP8266: 32-bit [int], [uint32_t], [uint16_t], [uint8_t]/[byte]) written
    out.  [float] is IEEE-754 binary32 and [double] binary64, both carried by
    [spec_float] with the operations of [SpecFloat] at the matching
    precision. *)

From Stdlib Require Import ZArith Lia Bool List.
From Stdlib Require Import Floats.SpecFloat.
From stdpp Require Import base list.

Local Open Scope Z_scope.

(** ** Fixed-width integers *)

Definition to_u8 (z : Z) : Z := z mod 2 ^ 8.
Definition to_u16 (z : Z) : Z := z mod 2 ^ 16.
Definition to_u32 (z : Z) : Z := z mod 2 ^ 32.

(** ** Colors.h: colour construction *)

Module Colors.

(** [uint32_t createColor(int red, int green, int blue)].  Every step is
    carried out on the [uint32_t] local [color]; the [int] arguments are
    converted to [uint32_t] where they meet it. *)
Definition createColor (red green blue : Z) : Z :=
  let color := to_u32 red in
  let color := to_u32 (Z.shiftl color 8) in
  let color := Z.lor color (to_u32 green) in
  let color := to_u32 (Z.shiftl color 8) in
  let color := Z.lor color (to_u32 blue) in
  color.

(** [uint32_t wheel(byte wheelPos)].  [wheelPos] is a [byte]; the products
    and differences are computed on [int] after promotion, the compound
    assignments [wheelPos -= k] store back into the [byte]. *)
Definition wheel (wheelPos : Z) : Z :=
  if wheelPos <? 85 then
    createColor (wheelPos * 3) (255 - wheelPos * 3) 0
  else if wheelPos <? 170 then
    let wheelPos := to_u8 (wheelPos - 85) in
    createColor (255 - wheelPos * 3) 0 (wheelPos * 3)
  else
    let wheelPos := to_u8 (wheelPos - 170) in
    createColor 0 (wheelPos * 3) (255 - wheelPos * 3).

End Colors.

(** ** The shift/mask scheme of [setPixelColor]

    [setPixelColor] reads blue from the low byte, shifts the colour right by
    eight, reads green, shifts again and reads red.  [channels] is that
    sequence on its own, returning (red, green, blue). *)
Definition channels (color : Z) : Z * Z * Z :=
  let b := Z.land color 255 in
  let color := Z.shiftr color 8 in
  let g := Z.land color 255 in
  let color := Z.shiftr color 8 in
  let r := Z.land color 255 in
  (r, g, b).

Definition red_of (color : Z) : Z := fst (fst (channels color)).
Definition green_of (color : Z) : Z := snd (fst (channels color)).
Definition blue_of (color : Z) : Z := snd (channels color).

(** ** Floating point

    [float] values are [spec_float]s that are valid for binary32, [double]
    values are valid for binary64; rounding is to nearest, ties to even. *)
Module F32.
Definition prec : Z := 24.
Definition emax : Z := 128.
Definition mul : spec_float -> spec_float -> spec_float := SFmul prec emax.
(** Integer to [float] conversion. *)
Definition of_Z (n : Z) : spec_float := binary_normalize prec emax n 0 false.
(** [double] to [float]: rounds. *)
Definition of_double (x : spec_float) : spec_float :=
  match x with
  | S754_finite s m e => binary_round prec emax s m e
  | _ => x
  end.
Definition valid (x : spec_float) : bool := valid_binary prec emax x.
End F32.

Module F64.
Definition prec : Z := 53.
Definition emax : Z := 1024.
(** [float] to [double] promotion: the same number in the binary64
    layout. *)
Definition of_float (x : spec_float) : spec_float :=
  match x with
  | S754_finite s m e => binary_round prec emax s m e
  | _ => x
  end.
Definition div : spec_float -> spec_float -> spec_float := SFdiv prec emax.
Definition of_Z (n : Z) : spec_float := binary_normalize prec emax n 0 false.
(** The literals [0.01] and [0.8]: the doubles 0x3F847AE147AE147B and
    0x3FE999999999999A. *)
Definition lit_0_01 : spec_float := S754_finite false 5764607523034235 (-59).
Definition lit_0_8 : spec_float := S754_finite false 7205759403792794 (-53).
End F64.

Definition is_nan (x : spec_float) : bool :=
  match x with S754_nan => true | _ => false end.

Definition is_finite (x : spec_float) : bool :=
  match x with S754_zero _ | S754_finite _ _ _ => true | _ => false end.

(** The [float]s that the literals [0.01] and [0.8] convert to when they
    are stored into a [float]. *)
Definition brightness_min : spec_float := F32.of_double F64.lit_0_01.
Definition brightness_max : spec_float := F32.of_double F64.lit_0_8.

(** [lo <= x <= hi], compared on [double] after promotion as the source
    compares. *)
Definition between (lo hi x : spec_float) : bool :=
  SFleb (F64.of_float lo) (F64.of_float x)
  && SFleb (F64.of_float x) (F64.of_float hi).

(** Floating to integer conversion drops the fraction (rounds toward zero);
    NaN and the infinities have no integer value. *)
Definition truncate (x : spec_float) : option Z :=
  match x with
  | S754_zero _ => Some 0
  | S754_finite s m e =>
      Some (cond_Zopp s (match e with
                         | Zneg p => Zpos m / 2 ^ Zpos p
                         | _ => Zpos m * 2 ^ e
                         end))
  | _ => None
  end.

(** [float] to [uint8_t]: defined only when the truncated value fits. *)
Definition u8_of_float (x : spec_float) : option Z :=
  match truncate x with
  | Some t => if (0 <=? t) && (t <=? 255) then Some t else None
  | None => None
  end.

(** ** What the rest of the firmware and the NeoPixelBus library supply

    The four macros come from the enclosing sketch; [gammaTable] is the
    lookup table of [NeoGammaTableMethod], indexed by an 8-bit channel. *)
Class Board := {
  PIXEL_COUNT : Z;
  LARGE_RING_OFFSET : Z;
  SMALL_RING_OFFSET : Z;
  STRIP_OFFSET : Z;
  gammaTable : Z -> Z
}.

(** ** The bus object, the brightness and what can be observed *)

Record RgbColor := mkRgb { R : Z; G : Z; B : Z }.

Definition black : RgbColor := mkRgb 0 0 0.

(** Calls that leave the two headers, in the order they are made. *)
Inductive Event :=
| EvBegin
| EvSetPixelColor (indexPixel : Z) (color : RgbColor)
| EvShow
| EvDelay (ms : Z).

Record State := mkState {
  brightness : spec_float;      (* static float brightness *)
  pixels : list RgbColor;       (* frame buffer of strip *)
  leds : list RgbColor;         (* what the physical strip displays *)
  events : list Event
}.

Definition emit (e : Event) (s : State) : State :=
  mkState (brightness s) (pixels s) (leds s) (events s ++ [e]).

(** A function body either returns, has no defined behaviour, or is still
    running when the fuel of a loop is used up. *)
Inductive outcome :=
| Done (s : State)
| Undefined
| Timeout.

Definition cmd := State -> outcome.

Definition andThen (c1 c2 : cmd) : cmd :=
  fun s => match c1 s with
           | Done s' => c2 s'
           | Undefined => Undefined
           | Timeout => Timeout
           end.

Notation "c1 >>> c2" := (andThen c1 c2) (at level 62, right associativity).

Definition lift (f : State -> State) : cmd := fun s => Done (f s).

(** [for (i = start; i < bound; i++) body], with [conv] the conversion that
    stores [i + 1] back into the loop variable. *)
Fixpoint for_lt (fuel : nat) (conv : Z -> Z) (i bound : Z) (body : Z -> cmd)
  : cmd :=
  fun s =>
    match fuel with
    | O => Timeout
    | S fuel' =>
        if i <? bound
        then (body i >>> for_lt fuel' conv (conv (i + 1)) bound body) s
        else Done s
    end.

(** *** NeoPixelBus

    [SetPixelColor] takes a [uint16_t] index and writes the buffer only when
    the index is below the pixel count; [Show] sends the buffer to the
    LEDs. *)
Definition strip_Begin : State -> State := emit EvBegin.

Definition strip_Show (s : State) : State :=
  emit EvShow (mkState (brightness s) (pixels s) (pixels s) (events s)).

Definition strip_SetPixelColor (indexPixel : Z) (color : RgbColor) (s : State)
  : State :=
  let index16 := to_u16 indexPixel in
  let pixels' :=
    if index16 <? Z.of_nat (length (pixels s))
    then <[Z.to_nat index16 := color]> (pixels s)
    else pixels s in
  emit (EvSetPixelColor indexPixel color)
       (mkState (brightness s) pixels' (leds s) (events s)).

Definition delay (ms : Z) : State -> State := emit (EvDelay ms).

Section Firmware.
Context {board : Board}.

(** [NeoGamma<NeoGammaTableMethod>::Correct] on a colour. *)
Definition colorGamma_Correct (c : RgbColor) : RgbColor :=
  mkRgb (gammaTable (R c)) (gammaTable (G c)) (gammaTable (B c)).

(** State at start-up: the static [float] is zero-initialised and the bus
    owns [PIXEL_COUNT] (as [uint16_t]) cleared pixels. *)
Definition boot : State :=
  let n := Z.to_nat (to_u16 PIXEL_COUNT) in
  mkState (S754_zero false) (replicate n black) (replicate n black) [].

(** *** NeoPixelBus_Driver.h *)

(** The comparisons and the conditional are carried out on [double]
    (the literals are doubles); each assignment converts back to
    [float]. *)
Definition setBrightness (value : spec_float) : cmd :=
  fun s =>
    let value :=
      F32.of_double (if SFltb (F64.of_float value) F64.lit_0_01
                     then F64.lit_0_01 else F64.of_float value) in
    let value :=
      F32.of_double (if SFltb F64.lit_0_8 (F64.of_float value)
                     then F64.lit_0_8 else F64.of_float value) in
    Done (mkState value (pixels s) (leds s) (events s)).

Definition initPixels : cmd :=
  lift strip_Begin >>> lift strip_Show.

(** [(color & 0xFF) * brightness] stored into a [uint8_t] member. *)
Definition scale (channel : Z) (brightness : spec_float) : option Z :=
  u8_of_float (F32.mul (F32.of_Z channel) brightness).

Definition setPixelColor (num color : Z) : cmd :=
  fun s =>
    let b := scale (Z.land color 255) (brightness s) in
    let color := Z.shiftr color 8 in
    let g := scale (Z.land color 255) (brightness s) in
    let color := Z.shiftr color 8 in
    let r := scale (Z.land color 255) (brightness s) in
    match r, g, b with
    | Some r, Some g, Some b =>
        let rgbColor := mkRgb r g b in
        let rgbColor := colorGamma_Correct rgbColor in
        Done (strip_SetPixelColor num rgbColor s)
    | _, _, _ => Undefined
    end.

Definition clearAllPixels : cmd :=
  for_lt (S (Z.to_nat PIXEL_COUNT)) id 0 PIXEL_COUNT
         (fun i => setPixelColor i 0) >>>
  lift strip_Show.

Definition setAllPixels (color : Z) : cmd :=
  for_lt (S (Z.to_nat PIXEL_COUNT)) id 0 PIXEL_COUNT
         (fun i => setPixelColor i color) >>>
  lift strip_Show.

Definition showPixels : cmd := lift strip_Show.

(** *** Colors.h: zones and animation *)

Definition setLargeRingColor (color : Z) : cmd :=
  for_lt 25 id 0 24 (fun i => setPixelColor (LARGE_RING_OFFSET + i) color) >>>
  showPixels.

Definition setSmallRingColor (color : Z) : cmd :=
  for_lt 13 id 0 12 (fun i => setPixelColor (SMALL_RING_OFFSET + i) color) >>>
  showPixels.

Definition setStripColor (color : Z) : cmd :=
  for_lt 9 id 0 8 (fun i => setPixelColor (STRIP_OFFSET + i) color) >>>
  showPixels.

(** [i] and [j] are [uint16_t]; the inner loop ends only if [i] can reach
    [PIXEL_COUNT], hence the fuel. *)
Definition rainbowCycle (fuel : nat) (wait : Z) : cmd :=
  for_lt 769 to_u16 0 (256 * 3) (fun j =>
    for_lt fuel to_u16 0 PIXEL_COUNT (fun i =>
      setPixelColor i
        (Colors.wheel
           (to_u8 (Z.land (Z.quot (i * 256) PIXEL_COUNT + j) 255)))) >>>
    showPixels >>>
    lift (delay wait)).

(** *** Vocabulary of the statements *)

(** The colour [setPixelColor] hands to the bus for [color] under a
    given brightness, when all three conversions are defined. *)
Definition staged (brightness : spec_float) (color : Z) : option RgbColor :=
  match scale (red_of color) brightness,
        scale (green_of color) brightness,
        scale (blue_of color) brightness with
  | Some r, Some g, Some b => Some (colorGamma_Correct (mkRgb r g b))
  | _, _, _ => None
  end.

Definition adjusted (brightness : spec_float) (color : Z) : RgbColor :=
  default black (staged brightness color).

(** Every 8-bit channel value scales to a defined [uint8_t]. *)
Definition scalable (brightness : spec_float) : bool :=
  forallb (fun c => bool_decide (is_Some (scale c brightness))) (seqZ 0 256).

(** The bus writes of one pass of a loop over [ks]. *)
Definition paint (index : Z -> Z) (rgb : Z -> RgbColor) (ks : list Z)
  (s : State) : State :=
  foldl (fun s k => strip_SetPixelColor (index k) (rgb k) s) s ks.

(** The bus owns as many pixels as it was constructed with. *)
Definition wf_state (s : State) : Prop :=
  length (pixels s) = Z.to_nat (to_u16 PIXEL_COUNT).

(** Calls into the two headers, and running a sequence of them. *)
Inductive Call :=
| CallSetBrightness (value : spec_float)
| CallInitPixels
| CallSetPixelColor (num color : Z)
| CallClearAllPixels
| CallSetAllPixels (color : Z)
| CallShowPixels
| CallSetLargeRingColor (color : Z)
| CallSetSmallRingColor (color : Z)
| CallSetStripColor (color : Z)
| CallRainbowCycle (fuel : nat) (wait : Z).

Definition run (c : Call) : cmd :=
  match c with
  | CallSetBrightness value => setBrightness value
  | CallInitPixels => initPixels
  | CallSetPixelColor num color => setPixelColor num color
  | CallClearAllPixels => clearAllPixels
  | CallSetAllPixels color => setAllPixels color
  | CallShowPixels => showPixels
  | CallSetLargeRingColor color => setLargeRingColor color
  | CallSetSmallRingColor color => setSmallRingColor color
  | CallSetStripColor color => setStripColor color
  | CallRainbowCycle fuel wait => rainbowCycle fuel wait
  end.

Fixpoint run_all (cs : list Call) : cmd :=
  match cs with
  | [] => fun s => Done s
  | c :: cs' => run c >>> run_all cs'
  end.

Definition is_setBrightness (c : Call) : bool :=
  match c with CallSetBrightness _ => true | _ => false end.

End Firmware.

Definition is_show (e : Event) : bool :=
  match e with EvShow => true | _ => false end.

(** Number of flushes ([Show] calls) in a trace. *)
Definition flushes (es : list Event) : nat := length (List.filter is_show es).

(** A board to run the definitions on: the 44-pixel clock (24 + 12 + 8) with
    an identity gamma table. *)
Definition clock_board : Board :=
  {| PIXEL_COUNT := 44; LARGE_RING_OFFSET := 0; SMALL_RING_OFFSET := 24;
     STRIP_OFFSET := 36; gammaTable := fun v => v |}.

(** The clock after [setBrightness(0.5)], and a short run without
    [setBrightness]. *)
Definition half : spec_float := S754_finite false 8388608 (-24).

Definition lit_state : State :=
  mkState half (replicate 44 black) (replicate 44 black) [].

Definition dark_calls : list Call :=
  [CallInitPixels; CallSetPixelColor 3 16777215; CallShowPixels].

Definition dark_state : State :=
  Eval vm_compute in
    match run_all (board := clock_board) dark_calls
            (boot (board := clock_board)) with
    | Done s => s
    | _ => lit_state
    end.

(** [s'] is [s] after the [n] pixels from [offset] on were set to [rgb]
    and the frame was flushed once. *)
Definition zone_filled (offset n : Z) (rgb : RgbColor) (s s' : State) : Prop :=
  brightness s' = brightness s /\
  events s' =
    events s ++ map (fun i => EvSetPixelColor (offset + i) rgb) (seqZ 0 n)
             ++ [EvShow] /\
  flushes (events s') = S (flushes (events s)) /\
  leds s' = pixels s' /\
  length (pixels s') = length (pixels s) /\
  forall j : nat,
    pixels s' !! j =
      if bool_decide (offset <= Z.of_nat j < offset + n)
      then Some rgb else pixels s !! j.

(** The calls of step [j] of the rainbow: one pass over the pixels, one
    flush, one delay. *)
Definition rainbow_frame {board : Board} (b : spec_float) (wait j : Z)
  : list Event :=
  map (fun i =>
         EvSetPixelColor i
           (adjusted b (Colors.wheel ((i * 256 / PIXEL_COUNT + j) mod 256))))
      (seqZ 0 PIXEL_COUNT)
  ++ [EvShow; EvDelay wait].

Definition keeps (P : State -> Prop) (c : cmd) : Prop :=
  forall s s', c s = Done s' -> P s -> P s'.

(** Properties that no bus operation disturbs. *)
Definition bus_stable (P : State -> Prop) : Prop :=
  forall s, P s ->
    (forall i c, P (strip_SetPixelColor i c s)) /\
    P (strip_Show s) /\ P (strip_Begin s) /\ (forall ms, P (delay ms s)).

(** The [float] of a byte: exact, with a non-positive exponent. *)
Definition byte_float_ok (c : Z) : bool :=
  match F32.of_Z c with
  | S754_zero false => c =? 0
  | S754_finite false m e => (e <=? 0) && (Zpos m =? c * 2 ^ (- e))
  | _ => false
  end.

(** A call whose [float] argument, if it has one, is a valid [float] and
    not NaN. *)
Definition numeric_call (c : Call) : bool :=
  match c with
  | CallSetBrightness value => F32.valid value && negb (is_nan value)
  | _ => true
  end.

(** The brightness is the start-up zero or a [float] within the clamp
    bounds. *)
Definition brightness_ok (s : State) : Prop :=
  brightness s = S754_zero false \/
  (F32.valid (brightness s) = true /\
   between brightness_min brightness_max (brightness s) = true).

(** [c] has defined behaviour from every state satisfying [P], and keeps
    [P]. *)
Definition safe (P : State -> Prop) (c : cmd) : Prop :=
  forall s, P s -> c s <> Undefined /\ forall s', c s = Done s' -> P s'.

(** ** Vocabulary of the further properties *)

Definition is_pixel_write (e : Event) : bool :=
  match e with EvSetPixelColor _ _ => true | _ => false end.

(** Number of [SetPixelColor] calls in a trace. *)
Definition pixel_writes (es : list Event) : nat :=
  length (List.filter is_pixel_write es).

(** Sum of the arguments of the [delay] calls in a trace. *)
Definition total_delay (es : list Event) : Z :=
  foldr (fun e acc => match e with EvDelay ms => ms + acc | _ => acc end) 0 es.

(** Colour of pixel [i] at step [j] of the rainbow, and the state after that
    step. *)
Definition rainbow_rgb {board : Board} (b : spec_float) (j i : Z) : RgbColor :=
  adjusted b (Colors.wheel ((i * 256 / PIXEL_COUNT + j) mod 256)).

Definition rainbow_step {board : Board} (b : spec_float) (wait j : Z)
  (s : State) : State :=
  delay wait
    (strip_Show (paint (fun i => i) (rainbow_rgb b j) (seqZ 0 PIXEL_COUNT) s)).

(** One turn of the wheel: the calls of steps 0..255. *)
Definition rainbow_turn {board : Board} (b : spec_float) (wait : Z)
  : list Event :=
  concat (map (rainbow_frame b wait) (seqZ 0 256)).

(** A board whose pixel count does not fit [uint16_t]. *)
Definition big_board : Board :=
  {| PIXEL_COUNT := 70000; LARGE_RING_OFFSET := 0; SMALL_RING_OFFSET := 24;
     STRIP_OFFSET := 36; gammaTable := fun v => v |}.

(** No flush has happened since [s0], and then the LEDs are those of
    [s0]. *)
Definition leds_follow_flushes (s0 s : State) : Prop :=
  (flushes (events s0) <= flushes (events s))%nat /\
  (flushes (events s) = flushes (events s0) -> leds s = leds s0).

(** * Facts *)

(** ** Packing and unpacking colours *)

Lemma low_byte (x : Z) : Z.land x 255 = x mod 256.
Proof. change 255 with (Z.ones 8). now rewrite Z.land_ones by lia. Qed.

Lemma drop_byte (x : Z) : Z.shiftr x 8 = x / 256.
Proof. now rewrite Z.shiftr_div_pow2 by lia. Qed.

Lemma push_byte (hi lo : Z) :
  0 <= lo < 256 -> Z.lor (Z.shiftl hi 8) lo = hi * 256 + lo.
Proof.
  intros Hlo. rewrite <- Z.add_nocarry_lor.
  - now rewrite Z.shiftl_mul_pow2 by lia.
  - apply Z.bits_inj'. intros n Hn.
    rewrite Z.land_spec, Z.bits_0.
    destruct (Z.ltb_spec n 8) as [Hlt | Hge].
    + now rewrite Z.shiftl_spec_low.
    + replace (Z.testbit lo n) with false; [apply andb_false_r |].
      symmetry. destruct (Z.eq_dec lo 0) as [-> | Hnz]; [apply Z.bits_0 |].
      apply Z.bits_above_log2; [lia |].
      apply Z.log2_lt_pow2; [lia |].
      apply Z.lt_le_trans with (2 ^ 8); [lia |].
      apply Z.pow_le_mono_r; lia.
Qed.

Lemma createColor_in_range (red green blue : Z) :
  0 <= red <= 255 -> 0 <= green <= 255 -> 0 <= blue <= 255 ->
  Colors.createColor red green blue = red * 65536 + green * 256 + blue.
Proof.
  intros Hr Hg Hb. unfold Colors.createColor, to_u32.
  rewrite (Z.mod_small red), (Z.mod_small green), (Z.mod_small blue) by lia.
  rewrite (Z.shiftl_mul_pow2 red) by lia.
  rewrite (Z.mod_small (red * 2 ^ 8)) by lia.
  rewrite <- (Z.shiftl_mul_pow2 red) by lia.
  rewrite push_byte by lia.
  rewrite (Z.shiftl_mul_pow2 (red * 256 + green)) by lia.
  rewrite (Z.mod_small ((red * 256 + green) * 2 ^ 8)) by lia.
  rewrite <- (Z.shiftl_mul_pow2 (red * 256 + green)) by lia.
  rewrite push_byte by lia. lia.
Qed.

Lemma channels_packed (r g b : Z) :
  0 <= r <= 255 -> 0 <= g <= 255 -> 0 <= b <= 255 ->
  channels (r * 65536 + g * 256 + b) = (r, g, b).
Proof.
  intros Hr Hg Hb. unfold channels.
  rewrite !low_byte, !drop_byte.
  repeat f_equal; Z.div_mod_to_equations; lia.
Qed.

Lemma channels_createColor (red green blue : Z) :
  0 <= red <= 255 -> 0 <= green <= 255 -> 0 <= blue <= 255 ->
  channels (Colors.createColor red green blue) = (red, green, blue).
Proof.
  intros Hr Hg Hb.
  rewrite createColor_in_range by assumption.
  now apply channels_packed.
Qed.

(** The three segments of [wheel], with the channels written out. *)
Lemma wheel_channels (wheelPos : Z) :
  0 <= wheelPos <= 255 ->
  channels (Colors.wheel wheelPos) =
    if wheelPos <? 85 then (wheelPos * 3, 255 - wheelPos * 3, 0)
    else if wheelPos <? 170
         then (255 - (wheelPos - 85) * 3, 0, (wheelPos - 85) * 3)
         else (0, (wheelPos - 170) * 3, 255 - (wheelPos - 170) * 3).
Proof.
  intros Hw. unfold Colors.wheel, to_u8.
  destruct (Z.ltb_spec wheelPos 85); [apply channels_createColor; lia |].
  destruct (Z.ltb_spec wheelPos 170).
  - rewrite Z.mod_small by lia. apply channels_createColor; lia.
  - rewrite Z.mod_small by lia. apply channels_createColor; lia.
Qed.

(** C2.  For red, green and blue in 0..255 the shift/mask scheme of
    [setPixelColor] takes [createColor red green blue] apart into exactly
    red (bits 16-23), green (bits 8-15) and blue (bits 0-7). *)
Theorem createColor_round_trip (red green blue : Z) :
  0 <= red <= 255 -> 0 <= green <= 255 -> 0 <= blue <= 255 ->
  red_of (Colors.createColor red green blue) = red /\
  green_of (Colors.createColor red green blue) = green /\
  blue_of (Colors.createColor red green blue) = blue.
Proof.
  intros Hr Hg Hb. unfold red_of, green_of, blue_of.
  now rewrite channels_createColor.
Qed.

Lemma createColor_round_trip_witness :
  red_of (Colors.createColor 18 52 86) = 18 /\
  green_of (Colors.createColor 18 52 86) = 52 /\
  blue_of (Colors.createColor 18 52 86) = 86.
Proof. apply createColor_round_trip; lia. Defined.

(** The code does not put red, blue and green at positions 0, 85 and
    170. *)
Lemma wheel_primaries_not_red_blue_green :
  ~ (Colors.wheel 0 = Colors.createColor 255 0 0 /\
     Colors.wheel 85 = Colors.createColor 0 0 255 /\
     Colors.wheel 170 = Colors.createColor 0 255 0).
Proof. intros (H0 & _ & _). vm_compute in H0. discriminate. Qed.

(** What the code computes at the starts of its three segments. *)
Lemma wheel_segment_starts :
  Colors.wheel 0 = Colors.createColor 0 255 0 /\
  Colors.wheel 85 = Colors.createColor 255 0 0 /\
  Colors.wheel 170 = Colors.createColor 0 0 255.
Proof. repeat split; reflexivity. Qed.

(** C8.  [createColor] is total and checks nothing: a green of 256 comes
    back as red 1 although red 0 was passed, and green and blue read 0. *)
Theorem createColor_overflow_corrupts_red :
  exists red green blue : Z,
    0 <= red <= 255 /\ 255 < green /\ 0 <= blue <= 255 /\
    red_of (Colors.createColor red green blue) <> red /\
    channels (Colors.createColor red green blue) = (1, 0, 0).
Proof.
  exists 0, 256, 0. repeat split; try lia; vm_compute; congruence.
Qed.

(** C9.  For every position 0..255 the red, green and blue channels of
    [wheel] add up to 255 and one of the three is 0; from one position to
    the next one channel goes up by 3 and another down by 3. *)
Theorem wheel_channel_sum (wheelPos : Z) :
  0 <= wheelPos <= 255 ->
  red_of (Colors.wheel wheelPos) + green_of (Colors.wheel wheelPos)
    + blue_of (Colors.wheel wheelPos) = 255 /\
  (red_of (Colors.wheel wheelPos) = 0 \/
   green_of (Colors.wheel wheelPos) = 0 \/
   blue_of (Colors.wheel wheelPos) = 0) /\
  (wheelPos < 255 ->
   channels (Colors.wheel (wheelPos + 1)) =
     if wheelPos <? 85
     then (red_of (Colors.wheel wheelPos) + 3,
           green_of (Colors.wheel wheelPos) - 3,
           blue_of (Colors.wheel wheelPos))
     else if wheelPos <? 170
          then (red_of (Colors.wheel wheelPos) - 3,
                green_of (Colors.wheel wheelPos),
                blue_of (Colors.wheel wheelPos) + 3)
          else (red_of (Colors.wheel wheelPos),
                green_of (Colors.wheel wheelPos) + 3,
                blue_of (Colors.wheel wheelPos) - 3)).
Proof.
  intros Hw. unfold red_of, green_of, blue_of.
  rewrite wheel_channels by assumption. split; [| split].
  - destruct (wheelPos <? 85); [simpl; lia |].
    destruct (wheelPos <? 170); simpl; lia.
  - destruct (wheelPos <? 85); [simpl; lia |].
    destruct (wheelPos <? 170); simpl; lia.
  - intros Hlt. rewrite wheel_channels by lia.
    destruct (Z.ltb_spec wheelPos 85), (Z.ltb_spec (wheelPos + 1) 85),
      (Z.ltb_spec wheelPos 170), (Z.ltb_spec (wheelPos + 1) 170);
      try lia; cbn [fst snd]; rewrite !pair_equal_spec; lia.
Qed.

Lemma wheel_channel_sum_witness :
  red_of (Colors.wheel 200) + green_of (Colors.wheel 200)
    + blue_of (Colors.wheel 200) = 255 /\
  (red_of (Colors.wheel 200) = 0 \/
   green_of (Colors.wheel 200) = 0 \/
   blue_of (Colors.wheel 200) = 0) /\
  (200 < 255 ->
   channels (Colors.wheel (200 + 1)) =
     (red_of (Colors.wheel 200),
      green_of (Colors.wheel 200) + 3, blue_of (Colors.wheel 200) - 3)).
Proof. apply (wheel_channel_sum 200); lia. Defined.

(** ** Conversions between [float] and [double] *)

Lemma iter_pos_iter {A : Type} (f : A -> A) (p : positive) (x : A) :
  SpecFloat.iter_pos f p x = Pos.iter f x p.
Proof.
  revert x. induction p as [p IH | p IH |]; intros x; simpl.
  - now rewrite !IH, <- !Pos.iter_swap.
  - now rewrite !IH.
  - reflexivity.
Qed.

Lemma digits2_pos_shift (m p : positive) :
  digits2_pos (Pos.iter xO m p) = (digits2_pos m + p)%positive.
Proof.
  induction p as [| p IH] using Pos.peano_ind.
  - simpl. lia.
  - rewrite Pos.iter_succ. simpl. rewrite IH. lia.
Qed.

Lemma shr_shifted (m p : positive) :
  SpecFloat.iter_pos shr_1 p
    (Build_shr_record (Zpos (Pos.iter xO m p)) false false)
  = Build_shr_record (Zpos m) false false.
Proof.
  rewrite iter_pos_iter.
  induction p as [| p IH] using Pos.peano_ind.
  - reflexivity.
  - rewrite Pos.iter_succ_r, Pos.iter_succ. simpl. exact IH.
Qed.

Lemma digits2_pos_bound (m : positive) :
  2 ^ (Zpos (digits2_pos m) - 1) <= Zpos m < 2 ^ Zpos (digits2_pos m).
Proof.
  induction m as [m IH | m IH |]; simpl digits2_pos; [| | simpl; lia];
    rewrite Pos2Z.inj_succ;
    replace (Z.succ (Zpos (digits2_pos m)) - 1)
      with (Z.succ (Zpos (digits2_pos m) - 1)) by lia;
    rewrite !Z.pow_succ_r by lia;
    revert IH; generalize (2 ^ (Zpos (digits2_pos m) - 1));
    generalize (2 ^ Zpos (digits2_pos m)); intros; lia.
Qed.

(** A valid binary32 number, promoted to [double]: the mantissa is padded to
    53 bits. *)
Lemma of_float_finite (s : bool) (m : positive) (e : Z) :
  bounded F32.prec F32.emax m e = true ->
  exists p : positive,
    Zpos p = 53 - Zpos (digits2_pos m) /\
    F64.of_float (S754_finite s m e)
    = S754_finite s (Pos.iter xO m p) (e - Zpos p).
Proof.
  unfold bounded, canonical_mantissa, fexp, emin, F32.prec, F32.emax.
  intros Hb. apply andb_prop in Hb as [Hc He].
  apply Z.eqb_eq in Hc. apply Z.leb_le in He.
  set (d := digits2_pos m) in *.
  assert (Hd : Zpos d <= 24) by lia.
  assert (Hlo : -149 <= e) by lia.
  destruct (53 - Zpos d) as [| p | p] eqn:Hp; try lia.
  exists p. split; [reflexivity |].
  unfold F64.of_float, binary_round, shl_align, fexp, emin, F64.prec, F64.emax.
  fold d.
  replace (Z.max (Zpos d + e - 53) (3 - 1024 - 53) - e) with (Zneg p) by lia.
  unfold binary_round_aux, shr_fexp, Zdigits2, fexp, emin.
  rewrite digits2_pos_shift. fold d.
  replace (Z.max (Zpos d + e - 53) (3 - 1024 - 53)) with (e - Zpos p) by lia.
  replace (Z.max (Zpos (d + p) + (e - Zpos p) - 53) (3 - 1024 - 53)
           - (e - Zpos p)) with 0 by lia.
  simpl. rewrite digits2_pos_shift. fold d.
  replace (Z.max (Zpos (d + p) + (e - Zpos p) - 53) (3 - 1024 - 53)
           - (e - Zpos p)) with 0 by lia.
  simpl.
  destruct (Z.leb_spec (e - Zpos p) (1024 - 53)); [reflexivity | lia].
Qed.

Lemma shr_fexp_canonical (prec emax : Z) (m : positive) (e : Z) :
  canonical_mantissa prec emax m e = true ->
  shr_fexp prec emax (Zpos m) e loc_Exact
  = (Build_shr_record (Zpos m) false false, e).
Proof.
  unfold canonical_mantissa, shr_fexp. intros Hc. apply Z.eqb_eq in Hc.
  simpl Zdigits2. now rewrite Hc, Z.sub_diag.
Qed.

Lemma shr_fexp_padded (prec emax : Z) (m p : positive) (e : Z) :
  canonical_mantissa prec emax m e = true ->
  shr_fexp prec emax (Zpos (Pos.iter xO m p)) (e - Zpos p) loc_Exact
  = (Build_shr_record (Zpos m) false false, e).
Proof.
  unfold canonical_mantissa, shr_fexp. intros Hc. apply Z.eqb_eq in Hc.
  simpl Zdigits2. rewrite digits2_pos_shift.
  replace (Zpos (digits2_pos m + p) + (e - Zpos p))
    with (Zpos (digits2_pos m) + e) by lia.
  rewrite Hc. replace (e - (e - Zpos p)) with (Zpos p) by lia.
  unfold shr, shr_record_of_loc. rewrite shr_shifted. f_equal. lia.
Qed.

Lemma of_double_padded (s : bool) (m p : positive) (e : Z) :
  bounded F32.prec F32.emax m e = true ->
  Zpos p = 53 - Zpos (digits2_pos m) ->
  F32.of_double (S754_finite s (Pos.iter xO m p) (e - Zpos p))
  = S754_finite s m e.
Proof.
  unfold bounded. intros Hb Hp. apply andb_prop in Hb as [Hc He].
  unfold F32.of_double, binary_round.
  assert (Hf : fexp F32.prec F32.emax
                 (Zpos (digits2_pos (Pos.iter xO m p)) + (e - Zpos p)) = e).
  { rewrite digits2_pos_shift.
    replace (Zpos (digits2_pos m + p) + (e - Zpos p))
      with (Zpos (digits2_pos m) + e) by lia.
    now apply Z.eqb_eq. }
  rewrite Hf. unfold shl_align.
  replace (e - (e - Zpos p)) with (Zpos p) by lia.
  unfold binary_round_aux.
  rewrite shr_fexp_padded by assumption. simpl round_nearest_even.
  rewrite shr_fexp_canonical by assumption. simpl.
  now rewrite He.
Qed.

(** Promoting a [float] to [double] and converting back changes nothing. *)
Lemma of_double_of_float (x : spec_float) :
  F32.valid x = true -> F32.of_double (F64.of_float x) = x.
Proof.
  destruct x as [s | s | | s m e]; try reflexivity.
  intros Hv. destruct (of_float_finite s m e Hv) as (p & Hp & ->).
  now apply of_double_padded.
Qed.

Lemma of_float_not_nan (x : spec_float) :
  F32.valid x = true -> is_nan (F64.of_float x) = is_nan x.
Proof.
  destruct x as [s | s | | s m e]; try reflexivity.
  intros Hv. now destruct (of_float_finite s m e Hv) as (p & Hp & ->).
Qed.

(** ** The order of [SFcompare] *)

Lemma SFcompare_swap (x y : spec_float) :
  SFcompare y x = option_map CompOpp (SFcompare x y).
Proof.
  destruct x as [sx | sx | | sx mx ex], y as [sy | sy | | sy my ey];
    try destruct sx; try destruct sy; try reflexivity;
    simpl; rewrite (Z.compare_antisym ex ey);
    destruct (ex ?= ey); simpl; try reflexivity;
    change (Pos.compare_cont Eq my mx) with (Pos.compare my mx);
    change (Pos.compare_cont Eq mx my) with (Pos.compare mx my);
    rewrite (Pos.compare_antisym mx my);
    destruct (mx ?= my)%positive; reflexivity.
Qed.

Lemma SFltb_false_SFleb (x y : spec_float) :
  is_nan x = false -> is_nan y = false ->
  SFltb x y = false -> SFleb y x = true.
Proof.
  unfold SFltb, SFleb. rewrite (SFcompare_swap x y).
  destruct x, y; try discriminate;
    intros _ _; destruct (SFcompare _ _) as [[ | | ] |] eqn:E;
    simpl; try reflexivity; try discriminate;
    simpl in E; repeat match type of E with
                       | context [if ?b then _ else _] => destruct b
                       end; discriminate.
Qed.

Lemma SFleb_trans (x y z : spec_float) :
  SFleb x y = true -> SFleb y z = true -> SFleb x z = true.
Proof.
  unfold SFleb.
  destruct x as [sx | sx | | sx mx ex], y as [sy | sy | | sy my ey],
    z as [sz | sz | | sz mz ez];
    try destruct sx; try destruct sy; try destruct sz;
    simpl; try reflexivity; try discriminate;
    change (Pos.compare_cont Eq mx my) with (Pos.compare mx my);
    change (Pos.compare_cont Eq my mz) with (Pos.compare my mz);
    change (Pos.compare_cont Eq mx mz) with (Pos.compare mx mz);
    destruct (Z.compare_spec ex ey), (Z.compare_spec ey ez),
      (Z.compare_spec ex ez);
    try reflexivity; try discriminate; try lia;
    destruct (Pos.compare_spec mx my), (Pos.compare_spec my mz),
      (Pos.compare_spec mx mz);
    simpl; try reflexivity; try discriminate; try lia.
Qed.

(** ** setBrightness *)

Lemma brightness_bounds_eval :
  brightness_min = S754_finite false 10737418 (-30) /\
  brightness_max = S754_finite false 13421773 (-24).
Proof. split; reflexivity. Qed.

Lemma literals_are_quotients :
  F64.lit_0_01 = F64.div (F64.of_Z 1) (F64.of_Z 100) /\
  F64.lit_0_8 = F64.div (F64.of_Z 8) (F64.of_Z 10).
Proof. split; vm_compute; reflexivity. Qed.

(** What [setBrightness] stores, for every [float] including NaN. *)
Lemma setBrightness_stores (value : spec_float) (s : State) :
  F32.valid value = true ->
  setBrightness value s =
    Done (mkState
            (if SFltb (F64.of_float value) F64.lit_0_01 then brightness_min
             else if SFltb F64.lit_0_8 (F64.of_float value) then brightness_max
                  else value)
            (pixels s) (leds s) (events s)).
Proof.
  intros Hv. unfold setBrightness.
  destruct (SFltb (F64.of_float value) F64.lit_0_01) eqn:Hlo.
  - reflexivity.
  - rewrite (of_double_of_float value Hv).
    destruct (SFltb F64.lit_0_8 (F64.of_float value)); [reflexivity |].
    now rewrite (of_double_of_float value Hv).
Qed.

(** C3 as stated does not hold.  A NaN argument passes both comparisons and
    is stored as it is; and for an argument below the range the stored
    [float] is the one nearest to 0.01, which is smaller than 0.01. *)
Lemma setBrightness_not_in_literal_range :
  (exists s', setBrightness S754_nan (@boot clock_board) = Done s' /\
              brightness s' = S754_nan /\
              SFleb F64.lit_0_01 (F64.of_float (brightness s')) = false) /\
  (exists s', setBrightness (F32.of_Z (-5)) (@boot clock_board) = Done s' /\
              SFleb F64.lit_0_01 (F64.of_float (brightness s')) = false /\
              SFltb (F64.of_float (brightness s')) F64.lit_0_01 = true).
Proof.
  split; eexists; (split; [reflexivity |]); repeat split; reflexivity.
Qed.

Lemma setBrightness_examples (s : State) :
  setBrightness (F32.of_Z (-5)) s
    = Done (mkState brightness_min (pixels s) (leds s) (events s)) /\
  setBrightness (F32.of_Z 5) s
    = Done (mkState brightness_max (pixels s) (leds s) (events s)) /\
  setBrightness (S754_finite false 8388608 (-24)) s
    = Done (mkState (S754_finite false 8388608 (-24))
                    (pixels s) (leds s) (events s)).
Proof. repeat split; reflexivity. Qed.

(** The stored value is within the bounds unless the argument is NaN. *)
Lemma clamp_between (value : spec_float) :
  F32.valid value = true ->
  is_nan value = false ->
  between brightness_min brightness_max
    (if SFltb (F64.of_float value) F64.lit_0_01 then brightness_min
     else if SFltb F64.lit_0_8 (F64.of_float value) then brightness_max
          else value) = true.
Proof.
  intros Hv Hn.
  destruct (SFltb (F64.of_float value) F64.lit_0_01) eqn:Hlo;
    [reflexivity |].
  destruct (SFltb F64.lit_0_8 (F64.of_float value)) eqn:Hhi;
    [reflexivity |].
  assert (Hn64 : is_nan (F64.of_float value) = false)
    by now rewrite of_float_not_nan.
  unfold between. apply andb_true_intro. split.
  - apply SFleb_trans with F64.lit_0_01; [reflexivity |].
    now apply SFltb_false_SFleb.
  - apply SFleb_trans with F64.lit_0_8; [| reflexivity].
    now apply SFltb_false_SFleb.
Qed.

(** C3, amended.  For every [float] value other than NaN, [setBrightness]
    returns, changes nothing but the brightness, and stores the [float]
    nearest to 0.01 if value < 0.01, the [float] nearest to 0.8 if
    value > 0.8, and value itself otherwise; the stored brightness lies
    between those two [float]s. *)
Theorem setBrightness_clamps (value : spec_float) (s : State) :
  F32.valid value = true ->
  is_nan value = false ->
  exists s',
    setBrightness value s = Done s' /\
    brightness s' =
      (if SFltb (F64.of_float value) F64.lit_0_01 then brightness_min
       else if SFltb F64.lit_0_8 (F64.of_float value) then brightness_max
            else value) /\
    between brightness_min brightness_max (brightness s') = true /\
    pixels s' = pixels s /\ leds s' = leds s /\ events s' = events s.
Proof.
  intros Hv Hn. rewrite (setBrightness_stores value s Hv).
  eexists. split; [reflexivity |]. cbn [brightness pixels leds events].
  split; [reflexivity |]. split; [| now repeat split].
  now apply clamp_between.
Qed.

Lemma setBrightness_clamps_witness :
  exists s',
    setBrightness (S754_finite false 8388608 (-24)) (@boot clock_board)
      = Done s' /\
    brightness s' = S754_finite false 8388608 (-24) /\
    between brightness_min brightness_max (brightness s') = true /\
    pixels s' = pixels (@boot clock_board) /\
    leds s' = leds (@boot clock_board) /\
    events s' = events (@boot clock_board).
Proof.
  exact (setBrightness_clamps (S754_finite false 8388608 (-24))
           (@boot clock_board) eq_refl eq_refl).
Defined.

(** ** Loops *)

Section Loops.
Variables (conv : Z -> Z) (bound : Z) (body : Z -> cmd).
Variable step : Z -> State -> State.
Variable Inv : State -> Prop.
Hypothesis conv_ok : forall k, 0 <= k < bound -> conv (k + 1) = k + 1.
Hypothesis body_ok :
  forall k s, 0 <= k < bound -> Inv s ->
              body k s = Done (step k s) /\ Inv (step k s).

Lemma for_lt_from (fuel : nat) (i : Z) (s : State) :
  0 <= i ->
  (Z.to_nat (bound - i) < fuel)%nat ->
  Inv s ->
  for_lt fuel conv i bound body s
    = Done (foldl (fun s k => step k s) s (seqZ i (bound - i)))
  /\ Inv (foldl (fun s k => step k s) s (seqZ i (bound - i))).
Proof.
  revert i s. induction fuel as [| fuel IH]; intros i s Hi Hfuel HI; [lia |].
  simpl. destruct (Z.ltb_spec i bound) as [Hlt | Hge].
  - destruct (body_ok i s) as [Hb HI']; [lia | assumption |].
    unfold andThen. rewrite Hb, conv_ok by lia.
    rewrite (seqZ_cons i (bound - i)) by lia. simpl.
    replace (Z.pred (bound - i)) with (bound - Z.succ i) by lia.
    apply IH; [lia | lia | assumption].
  - replace (seqZ i (bound - i)) with (@nil Z); [now split |].
    symmetry. apply seqZ_nil. lia.
Qed.
End Loops.

Lemma for_lt_unfold fuel conv i bound body s :
  for_lt (S fuel) conv i bound body s
  = if i <? bound
    then (body i >>> for_lt fuel conv (conv (i + 1)) bound body) s
    else Done s.
Proof. reflexivity. Qed.

(** A loop keeps what each of its iterations keeps. *)
Lemma for_lt_preserves (P : State -> Prop) (conv : Z -> Z) (bound : Z)
  (body : Z -> cmd) :
  (forall k s s', body k s = Done s' -> P s -> P s') ->
  forall fuel i s s',
    for_lt fuel conv i bound body s = Done s' -> P s -> P s'.
Proof.
  intros Hbody. induction fuel as [| fuel IH]; intros i s s'; simpl;
    [discriminate |].
  destruct (i <? bound).
  - unfold andThen. destruct (body i s) as [s1 | |] eqn:Hb; try discriminate.
    intros Hrest HP. eapply IH; [exact Hrest |]. eapply Hbody; eassumption.
  - intros [= <-]. trivial.
Qed.

(** ** The bus *)

Lemma flushes_app (es es' : list Event) :
  flushes (es ++ es') = (flushes es + flushes es')%nat.
Proof. unfold flushes. now rewrite List.filter_app, length_app. Qed.

Lemma flushes_set_pixels (f : Z -> Event) (ks : list Z) :
  (forall k, is_show (f k) = false) -> flushes (map f ks) = 0%nat.
Proof.
  intros Hf. unfold flushes. induction ks as [| k ks IH]; [reflexivity |].
  simpl. now rewrite Hf.
Qed.

Section BusFacts.
Context {board : Board}.

Lemma setPixelColor_staged (num color : Z) (s : State) :
  setPixelColor num color s =
    match staged (brightness s) color with
    | Some rgb => Done (strip_SetPixelColor num rgb s)
    | None => Undefined
    end.
Proof.
  unfold setPixelColor, staged, red_of, green_of, blue_of, channels.
  cbn [fst snd].
  destruct (scale (Z.land (Z.shiftr (Z.shiftr color 8) 8) 255) (brightness s));
    [| reflexivity].
  destruct (scale (Z.land (Z.shiftr color 8) 255) (brightness s));
    [| reflexivity].
  now destruct (scale (Z.land color 255) (brightness s)).
Qed.

Lemma paint_snoc index rgb ks k s :
  paint index rgb (ks ++ [k]) s
  = strip_SetPixelColor (index k) (rgb k) (paint index rgb ks s).
Proof. unfold paint. now rewrite foldl_app. Qed.

Lemma paint_brightness index rgb ks s :
  brightness (paint index rgb ks s) = brightness s.
Proof.
  induction ks as [| k ks IH] using rev_ind; [reflexivity |].
  now rewrite paint_snoc.
Qed.

Lemma paint_leds index rgb ks s : leds (paint index rgb ks s) = leds s.
Proof.
  induction ks as [| k ks IH] using rev_ind; [reflexivity |].
  now rewrite paint_snoc.
Qed.

Lemma paint_events index rgb ks s :
  events (paint index rgb ks s)
  = events s ++ map (fun k => EvSetPixelColor (index k) (rgb k)) ks.
Proof.
  induction ks as [| k ks IH] using rev_ind.
  - simpl. now rewrite app_nil_r.
  - rewrite paint_snoc, map_app. simpl. rewrite IH. now rewrite <- app_assoc.
Qed.

Lemma strip_SetPixelColor_length i c s :
  length (pixels (strip_SetPixelColor i c s)) = length (pixels s).
Proof.
  unfold strip_SetPixelColor. simpl.
  destruct (_ <? _); [apply length_insert | reflexivity].
Qed.

Lemma paint_length index rgb ks s :
  length (pixels (paint index rgb ks s)) = length (pixels s).
Proof.
  induction ks as [| k ks IH] using rev_ind; [reflexivity |].
  now rewrite paint_snoc, strip_SetPixelColor_length.
Qed.

(** Painting one colour: the pixels whose index is visited hold it, the
    others keep what they had. *)
Lemma paint_const_hit index c ks s (j : nat) :
  (forall k, k ∈ ks -> 0 <= index k < 65536) ->
  Z.of_nat j ∈ index <$> ks ->
  (j < length (pixels s))%nat ->
  pixels (paint index (fun _ => c) ks s) !! j = Some c.
Proof.
  induction ks as [| k ks IH] using rev_ind; intros Hidx Hin Hj.
  - simpl in Hin. now apply elem_of_nil in Hin.
  - rewrite paint_snoc. unfold strip_SetPixelColor. simpl.
    rewrite paint_length.
    assert (Hk : 0 <= index k < 65536).
    { apply Hidx, elem_of_app. right. now apply list_elem_of_singleton. }
    assert (Hks : forall k', k' ∈ ks -> 0 <= index k' < 65536).
    { intros k' Hk'. apply Hidx, elem_of_app. now left. }
    unfold to_u16. rewrite Z.mod_small by lia.
    destruct (decide (Z.of_nat j = index k)) as [Heq | Hne].
    + rewrite <- Heq.
      destruct (Z.ltb_spec (Z.of_nat j) (Z.of_nat (length (pixels s))));
        [| lia].
      rewrite Nat2Z.id. apply list_lookup_insert_eq.
      now rewrite paint_length.
    + rewrite fmap_app in Hin. apply elem_of_app in Hin as [Hin | Hin].
      * destruct (_ <? _); [| now apply IH].
        rewrite list_lookup_insert_ne by lia. now apply IH.
      * apply list_elem_of_singleton in Hin. contradiction.
Qed.

Lemma paint_miss index rgb ks s (j : nat) :
  (forall k, k ∈ ks -> 0 <= index k < 65536) ->
  Z.of_nat j ∉ index <$> ks ->
  pixels (paint index rgb ks s) !! j = pixels s !! j.
Proof.
  induction ks as [| k ks IH] using rev_ind; intros Hidx Hnin;
    [reflexivity |].
  rewrite paint_snoc. unfold strip_SetPixelColor. simpl.
  assert (Hk : 0 <= index k < 65536).
  { apply Hidx, elem_of_app. right. now apply list_elem_of_singleton. }
  assert (Hks : forall k', k' ∈ ks -> 0 <= index k' < 65536).
  { intros k' Hk'. apply Hidx, elem_of_app. now left. }
  unfold to_u16. rewrite Z.mod_small by lia.
  rewrite fmap_app in Hnin.
  assert (Hne : Z.of_nat j <> index k).
  { intros Heq. apply Hnin, elem_of_app. right.
    now apply list_elem_of_singleton. }
  assert (Hnin' : Z.of_nat j ∉ index <$> ks).
  { intros Hin. apply Hnin, elem_of_app. now left. }
  destruct (_ <? _); [| now apply IH].
  rewrite list_lookup_insert_ne by lia. now apply IH.
Qed.
End BusFacts.

(** ** What the calls keep *)

Lemma keeps_andThen P c1 c2 : keeps P c1 -> keeps P c2 -> keeps P (c1 >>> c2).
Proof.
  intros H1 H2 s s'. unfold andThen.
  destruct (c1 s) as [s1 | |] eqn:E1; try discriminate.
  intros E2 HP. eapply H2; [exact E2 |]. eapply H1; eassumption.
Qed.

Lemma keeps_lift P f : (forall s, P s -> P (f s)) -> keeps P (lift f).
Proof. intros Hf s s' [= <-]. apply Hf. Qed.

Lemma keeps_for_lt P fuel conv i bound body :
  (forall k, keeps P (body k)) -> keeps P (for_lt fuel conv i bound body).
Proof.
  intros Hbody s s' Hrun. eapply for_lt_preserves; [| exact Hrun].
  intros k s0 s1. apply Hbody.
Qed.

Section Keeps.
Context {board : Board}.
Variable P : State -> Prop.
Hypothesis P_stable : bus_stable P.

Lemma keeps_setPixelColor num color : keeps P (setPixelColor num color).
Proof.
  intros s s'. rewrite setPixelColor_staged.
  destruct (staged (brightness s) color); [| discriminate].
  intros [= <-] HP. now apply P_stable.
Qed.

Lemma keeps_showPixels : keeps P showPixels.
Proof. apply keeps_lift. intros s HP. now apply P_stable. Qed.

Lemma keeps_run (c : Call) : is_setBrightness c = false -> keeps P (run c).
Proof.
  destruct c; simpl; [discriminate | intros _ ..].
  - apply keeps_andThen; apply keeps_lift; intros s HP; now apply P_stable.
  - apply keeps_setPixelColor.
  - apply keeps_andThen; [apply keeps_for_lt; intros k |];
      [apply keeps_setPixelColor | apply keeps_showPixels].
  - apply keeps_andThen; [apply keeps_for_lt; intros k |];
      [apply keeps_setPixelColor | apply keeps_showPixels].
  - apply keeps_showPixels.
  - apply keeps_andThen; [apply keeps_for_lt; intros k |];
      [apply keeps_setPixelColor | apply keeps_showPixels].
  - apply keeps_andThen; [apply keeps_for_lt; intros k |];
      [apply keeps_setPixelColor | apply keeps_showPixels].
  - apply keeps_andThen; [apply keeps_for_lt; intros k |];
      [apply keeps_setPixelColor | apply keeps_showPixels].
  - apply keeps_for_lt. intros j.
    apply keeps_andThen;
      [apply keeps_for_lt; intros k; apply keeps_setPixelColor |].
    apply keeps_andThen; [apply keeps_showPixels |].
    apply keeps_lift. intros s HP. now apply P_stable.
Qed.
End Keeps.

Lemma brightness_stable (b : spec_float) :
  bus_stable (fun s => brightness s = b).
Proof. intros s Hs. repeat split; intros; exact Hs. Qed.

Lemma wf_state_stable {board : Board} : bus_stable wf_state.
Proof.
  intros s Hs. unfold wf_state in *. repeat split; intros; try exact Hs.
  now rewrite strip_SetPixelColor_length.
Qed.

Lemma run_all_keeps_brightness {board : Board} (cs : list Call) :
  forallb (fun c => negb (is_setBrightness c)) cs = true ->
  forall s s', run_all cs s = Done s' -> brightness s' = brightness s.
Proof.
  induction cs as [| c cs IH]; simpl; intros Hcs s s'.
  - now intros [= <-].
  - apply andb_prop in Hcs as [Hc Hcs]. apply negb_true_iff in Hc.
    unfold andThen. destruct (run c s) as [s1 | |] eqn:E1; try discriminate.
    intros E2. rewrite (IH Hcs _ _ E2).
    now apply (keeps_run _ (brightness_stable (brightness s)) c Hc s s1).
Qed.

(** The frame buffer keeps its size under every call, [setBrightness]
    included. *)
Lemma run_keeps_wf {board : Board} (c : Call) : keeps wf_state (run c).
Proof.
  destruct (is_setBrightness c) eqn:Hc.
  - destruct c; try discriminate. intros s s' [= <-]. trivial.
  - apply keeps_run; [apply wf_state_stable | exact Hc].
Qed.

Lemma boot_wf {board : Board} : wf_state boot.
Proof. unfold wf_state, boot. simpl. apply length_replicate. Qed.

(** ** Scaling channels *)

Lemma small_ints_finite :
  forallb (fun c => is_finite (F32.of_Z c)) (seqZ 0 256) = true.
Proof. vm_compute. reflexivity. Qed.

Lemma of_Z_byte_finite (c : Z) :
  0 <= c <= 255 -> is_finite (F32.of_Z c) = true.
Proof.
  intros Hc. assert (H := small_ints_finite).
  rewrite forallb_forall in H. apply H.
  apply list_elem_of_In, elem_of_seqZ. lia.
Qed.

Lemma byte_of_land (x : Z) : 0 <= Z.land x 255 <= 255.
Proof. rewrite low_byte. Z.div_mod_to_equations. lia. Qed.

Lemma channels_bytes (color : Z) :
  0 <= red_of color <= 255 /\ 0 <= green_of color <= 255 /\
  0 <= blue_of color <= 255.
Proof.
  unfold red_of, green_of, blue_of, channels. cbn [fst snd].
  repeat split; apply byte_of_land.
Qed.

(** With a brightness of zero every channel scales to 0. *)
Lemma scale_zero_brightness (c : Z) (sign : bool) :
  0 <= c <= 255 -> scale c (S754_zero sign) = Some 0.
Proof.
  intros Hc. unfold scale, F32.mul.
  assert (Hf := of_Z_byte_finite c Hc).
  destruct (F32.of_Z c); try discriminate; reflexivity.
Qed.

(** A channel of 0 scales to 0 under every finite brightness. *)
Lemma scale_zero_channel (b : spec_float) :
  is_finite b = true -> scale 0 b = Some 0.
Proof. destruct b; try discriminate; reflexivity. Qed.

Lemma scalable_spec (b : spec_float) (c : Z) :
  scalable b = true -> 0 <= c <= 255 -> is_Some (scale c b).
Proof.
  unfold scalable. rewrite forallb_forall. intros H Hc.
  assert (Hin : In c (seqZ 0 256))
    by (apply list_elem_of_In, elem_of_seqZ; lia).
  apply H in Hin. now apply bool_decide_eq_true in Hin.
Qed.

Section StagedFacts.
Context {board : Board}.

Lemma staged_scalable (b : spec_float) (color : Z) :
  scalable b = true -> staged b color = Some (adjusted b color).
Proof.
  intros Hs. unfold adjusted, staged.
  destruct (channels_bytes color) as (Hr & Hg & Hb).
  destruct (scalable_spec b _ Hs Hr) as [r ->].
  destruct (scalable_spec b _ Hs Hg) as [g ->].
  destruct (scalable_spec b _ Hs Hb) as [b' ->].
  reflexivity.
Qed.

Lemma staged_zero_brightness (sign : bool) (color : Z) :
  staged (S754_zero sign) color = Some (colorGamma_Correct black).
Proof.
  unfold staged. destruct (channels_bytes color) as (Hr & Hg & Hb).
  now rewrite !scale_zero_brightness.
Qed.

Lemma staged_zero_color (b : spec_float) :
  is_finite b = true -> staged b 0 = Some (colorGamma_Correct black).
Proof.
  intros Hb. unfold staged.
  change (red_of 0) with 0. change (green_of 0) with 0.
  change (blue_of 0) with 0. now rewrite scale_zero_channel.
Qed.

Lemma paint_loop fuel conv bound (index col : Z -> Z) (rgb : Z -> RgbColor)
  (s : State) :
  (forall k, 0 <= k < bound -> conv (k + 1) = k + 1) ->
  (forall k, 0 <= k < bound ->
             staged (brightness s) (col k) = Some (rgb k)) ->
  (Z.to_nat bound < fuel)%nat ->
  for_lt fuel conv 0 bound (fun k => setPixelColor (index k) (col k)) s
  = Done (paint index rgb (seqZ 0 bound) s).
Proof.
  intros Hconv Hst Hfuel.
  destruct (for_lt_from conv bound
              (fun k => setPixelColor (index k) (col k))
              (fun k s' => strip_SetPixelColor (index k) (rgb k) s')
              (fun s' => brightness s' = brightness s)
              Hconv) with (fuel := fuel) (i := 0) (s := s) as [Hrun _].
  - intros k s' Hk Hb. rewrite setPixelColor_staged, Hb, (Hst k Hk).
    now split.
  - lia.
  - now rewrite Z.sub_0_r.
  - reflexivity.
  - rewrite Hrun, Z.sub_0_r. reflexivity.
Qed.
End StagedFacts.

(** ** Rounding of the scaled channel *)

Lemma shr_1_m (mrs : shr_record) :
  0 <= shr_m mrs -> shr_m (shr_1 mrs) = shr_m mrs / 2 /\ 0 <= shr_m (shr_1 mrs).
Proof.
  destruct mrs as [m r s]. cbn [shr_m]. intros Hm.
  destruct m as [| [p | p |] | p]; cbn [shr_1 shr_m]; try lia;
    (split; [Z.div_mod_to_equations; lia | lia]).
Qed.

Lemma shr_iter_m (k : positive) (mrs : shr_record) :
  0 <= shr_m mrs ->
  shr_m (SpecFloat.iter_pos shr_1 k mrs) = shr_m mrs / 2 ^ Zpos k.
Proof.
  rewrite iter_pos_iter. intros Hm.
  enough (H : shr_m (Pos.iter shr_1 mrs k) = shr_m mrs / 2 ^ Zpos k
              /\ 0 <= shr_m (Pos.iter shr_1 mrs k)) by apply H.
  induction k as [| k IH] using Pos.peano_ind.
  - simpl. destruct (shr_1_m mrs Hm) as [-> H0]. split; [| exact H0].
    reflexivity.
  - rewrite Pos.iter_succ. destruct IH as [IH1 IH2].
    destruct (shr_1_m _ IH2) as [-> H0]. split; [| exact H0].
    rewrite IH1, Pos2Z.inj_succ, Z.pow_succ_r by lia.
    rewrite Z.div_div by lia. f_equal. lia.
Qed.

(** [shr_fexp] drops the low bits of the mantissa down to the exponent the
    format allows. *)
Lemma shr_fexp_spec (prec emax m e : Z) (l : location) :
  0 <= m ->
  let e' := Z.max e (fexp prec emax (Zdigits2 m + e)) in
  snd (shr_fexp prec emax m e l) = e' /\
  shr_m (fst (shr_fexp prec emax m e l)) = m / 2 ^ (e' - e).
Proof.
  intros Hm e'. unfold shr_fexp, shr. subst e'.
  set (f := fexp prec emax (Zdigits2 m + e)).
  assert (Hrec : shr_m (shr_record_of_loc m l) = m)
    by (destruct l as [| []]; reflexivity).
  destruct (f - e) as [| k | k] eqn:Hk; simpl.
  - replace (Z.max e f) with e by lia. rewrite Z.sub_diag, Z.div_1_r.
    now split.
  - replace (Z.max e f) with (e + Zpos k) by lia. split; [reflexivity |].
    rewrite shr_iter_m by lia. rewrite Hrec. f_equal. f_equal. lia.
  - replace (Z.max e f) with e by lia. rewrite Z.sub_diag, Z.div_1_r.
    now split.
Qed.

Lemma round_nearest_even_bound (m : Z) (l : location) :
  m <= round_nearest_even m l <= m + 1.
Proof.
  destruct l as [| []]; simpl; try lia. destruct (Z.even m); lia.
Qed.

Lemma Zdigits2_bound (m : Z) :
  0 < m -> 2 ^ (Zdigits2 m - 1) <= m < 2 ^ Zdigits2 m.
Proof.
  destruct m as [| p | p]; try lia. intros _. apply digits2_pos_bound.
Qed.

Lemma Zdigits2_nonneg (m : Z) : 0 <= Zdigits2 m.
Proof. destruct m; simpl; lia. Qed.

(** A mantissa below a power of two has at most that many digits. *)
Lemma Zdigits2_le (m n : Z) : 0 <= m < 2 ^ n -> 0 <= n -> Zdigits2 m <= n.
Proof.
  intros Hm Hn. destruct (Z.eq_dec m 0) as [-> | Hnz]; [simpl; lia |].
  destruct (Zdigits2_bound m ltac:(lia)) as [Hlo _].
  destruct (Z.le_gt_cases (Zdigits2 m) n) as [| Hgt]; [assumption |].
  assert (2 ^ n <= 2 ^ (Zdigits2 m - 1)) by (apply Z.pow_le_mono_r; lia).
  lia.
Qed.

Lemma pow_cancel (x a b : Z) :
  0 <= a -> 0 <= b -> x * 2 ^ a < 2 ^ (b + a) -> x < 2 ^ b.
Proof.
  intros Ha Hb. rewrite Z.pow_add_r by lia.
  assert (0 < 2 ^ a) by (apply Z.pow_pos_nonneg; lia).
  assert (0 < 2 ^ b) by (apply Z.pow_pos_nonneg; lia). nia.
Qed.

Lemma div_pow_le (m k : Z) : 0 <= m -> 0 <= k -> m / 2 ^ k * 2 ^ k <= m.
Proof.
  intros Hm Hk. assert (0 < 2 ^ k) by (apply Z.pow_pos_nonneg; lia).
  rewrite Z.mul_comm. apply Z.mul_div_le. lia.
Qed.

(** One rounding step keeps a mantissa below [2 ^ (8 - e)] below that bound
    at the new exponent. *)
Lemma shr_fexp_below (m e : Z) (l : location) :
  0 <= m < 2 ^ (8 - e) -> e <= 0 ->
  let e' := snd (shr_fexp 24 128 m e l) in
  let m' := shr_m (fst (shr_fexp 24 128 m e l)) in
  e <= e' <= 0 /\ 0 <= m' /\ m' * 2 ^ (e' - e) <= m.
Proof.
  intros Hm He.
  destruct (shr_fexp_spec 24 128 m e l ltac:(lia)) as [He' Hm'].
  cbv zeta. rewrite He', Hm'.
  assert (Hd : Zdigits2 m <= 8 - e) by (apply Zdigits2_le; lia).
  pose proof (Zdigits2_nonneg m).
  unfold fexp, emin.
  set (e' := Z.max e (Z.max (Zdigits2 m + e - 24) (3 - 128 - 24))).
  assert (He1 : e <= e' <= 0) by lia.
  split; [exact He1 |].
  assert (0 < 2 ^ (e' - e)) by (apply Z.pow_pos_nonneg; lia).
  split; [apply Z.div_pos; lia |]. apply div_pow_le; lia.
Qed.

Lemma mul_below_256 (mc mb : positive) (ec eb c : Z) :
  ec <= 0 -> eb <= 0 ->
  Zpos mc = c * 2 ^ (- ec) -> 0 <= c <= 255 ->
  Zpos mb < 2 ^ (- eb) ->
  exists t,
    u8_of_float
      (SFmul 24 128 (S754_finite false mc ec) (S754_finite false mb eb))
    = Some t /\ 0 <= t <= 255.
Proof.
  intros Hec Heb Hmc Hc Hmb.
  cbn [SFmul xorb]. unfold binary_round_aux.
  set (P := Zpos (mc * mb)). set (E := ec + eb).
  assert (HE : E <= 0) by (unfold E; lia).
  assert (HP : 0 <= P < 255 * 2 ^ (- E)).
  { unfold P, E. rewrite Pos2Z.inj_mul, Hmc.
    replace (- (ec + eb)) with (- ec + - eb) by lia.
    rewrite Z.pow_add_r by lia.
    assert (0 < 2 ^ (- ec)) by (apply Z.pow_pos_nonneg; lia).
    assert (0 < 2 ^ (- eb)) by (apply Z.pow_pos_nonneg; lia).
    assert (0 < c) by nia. split; [nia |].
    apply Z.lt_le_trans with (c * 2 ^ (- ec) * 2 ^ (- eb)); [nia |].
    rewrite <- Z.mul_assoc. apply Z.mul_le_mono_nonneg_r; nia. }
  assert (HP8 : 0 <= P < 2 ^ (8 - E)).
  { replace (8 - E) with (8 + - E) by lia. rewrite Z.pow_add_r by lia.
    assert (0 < 2 ^ (- E)) by (apply Z.pow_pos_nonneg; lia).
    change (2 ^ 8) with 256. lia. }
  destruct (shr_fexp_below P E loc_Exact HP8 HE) as (He1 & Hm1 & Hm1P).
  destruct (shr_fexp 24 128 P E loc_Exact) as [mrs1 e1].
  cbn [fst snd] in He1, Hm1, Hm1P.
  set (m2 := round_nearest_even (shr_m mrs1) (loc_of_shr_record mrs1)).
  assert (Hm2 : shr_m mrs1 <= m2 <= shr_m mrs1 + 1)
    by apply round_nearest_even_bound.
  assert (Hm2b : 0 <= m2 < 2 ^ (8 - e1)).
  { split; [lia |]. apply pow_cancel with (a := e1 - E); [lia | lia |].
    replace (8 - e1 + (e1 - E)) with (8 - E) by lia.
    assert (Hp1 : 2 ^ (e1 - E) <= 2 ^ (- E))
      by (apply Z.pow_le_mono_r; lia).
    assert (0 < 2 ^ (e1 - E)) by (apply Z.pow_pos_nonneg; lia).
    replace (8 - E) with (8 + - E) by lia. rewrite Z.pow_add_r by lia.
    change (2 ^ 8) with 256. nia. }
  destruct (shr_fexp_below m2 e1 loc_Exact Hm2b ltac:(lia))
    as (He3 & Hm3 & Hm3m).
  destruct (shr_fexp 24 128 m2 e1 loc_Exact) as [mrs3 e3].
  cbn [fst snd] in He3, Hm3, Hm3m.
  assert (Hm3b : shr_m mrs3 < 2 ^ (8 - e3)).
  { apply pow_cancel with (a := e3 - e1); [lia | lia |].
    replace (8 - e3 + (e3 - e1)) with (8 - e1) by lia. lia. }
  destruct (shr_m mrs3) as [| m3 | m3] eqn:Hs3; [| | lia].
  - exists 0. split; [reflexivity | lia].
  - destruct (Z.leb_spec e3 (128 - 24)); [| lia].
    unfold u8_of_float, truncate, cond_Zopp.
    destruct e3 as [| p3 | p3]; [| lia |].
    + change (2 ^ 0) with 1. rewrite Z.mul_1_r.
      change (2 ^ (8 - 0)) with 256 in Hm3b.
      exists (Zpos m3).
      destruct (Z.leb_spec 0 (Zpos m3)), (Z.leb_spec (Zpos m3) 255);
        try lia. split; [reflexivity | lia].
    + assert (Hq : 0 <= Zpos m3 / 2 ^ Zpos p3 <= 255).
      { assert (0 < 2 ^ Zpos p3) by (apply Z.pow_pos_nonneg; lia).
        split; [apply Z.div_pos; lia |].
        enough (Zpos m3 / 2 ^ Zpos p3 < 256) by lia.
        apply Z.div_lt_upper_bound; [lia |].
        replace (8 - Zneg p3) with (8 + Zpos p3) in Hm3b by lia.
        rewrite Z.pow_add_r in Hm3b by lia.
        change (2 ^ 8) with 256 in Hm3b. lia. }
      exists (Zpos m3 / 2 ^ Zpos p3).
      destruct (Z.leb_spec 0 (Zpos m3 / 2 ^ Zpos p3)),
        (Z.leb_spec (Zpos m3 / 2 ^ Zpos p3) 255); try lia.
      split; [reflexivity | lia].
Qed.

Lemma bytes_float_ok : forallb byte_float_ok (seqZ 0 256) = true.
Proof. vm_compute. reflexivity. Qed.

Lemma of_Z_byte (c : Z) :
  0 <= c <= 255 ->
  (c = 0 /\ F32.of_Z c = S754_zero false) \/
  exists m e, F32.of_Z c = S754_finite false m e /\ e <= 0 /\
              Zpos m = c * 2 ^ (- e).
Proof.
  intros Hc. assert (H := bytes_float_ok). rewrite forallb_forall in H.
  assert (Hin : In c (seqZ 0 256))
    by (apply list_elem_of_In, elem_of_seqZ; lia).
  apply H in Hin. unfold byte_float_ok in Hin.
  destruct (F32.of_Z c) as [[] | | | [] m e]; try discriminate.
  - left. split; [now apply Z.eqb_eq | reflexivity].
  - right. exists m, e. apply andb_prop in Hin as [He Hm].
    apply Z.leb_le in He. apply Z.eqb_eq in Hm. now repeat split.
Qed.

(** A brightness within the clamp bounds is a positive [float] below 1. *)
Lemma between_below_one (b : spec_float) :
  F32.valid b = true ->
  between brightness_min brightness_max b = true ->
  exists m e, b = S754_finite false m e /\ e <= 0 /\ Zpos m < 2 ^ (- e).
Proof.
  intros Hv Hb. unfold between in Hb. apply andb_prop in Hb as [Hlo Hhi].
  change (F64.of_float brightness_min)
    with (S754_finite false 5764607394185216 (-59)) in Hlo.
  change (F64.of_float brightness_max)
    with (S754_finite false 7205759511166976 (-53)) in Hhi.
  destruct b as [s | s | | s m e]; try discriminate.
  - destruct s; discriminate.
  - destruct (of_float_finite s m e Hv) as (p & Hp & Hf).
    rewrite Hf in Hlo, Hhi.
    destruct s; [discriminate |].
    exists m, e. split; [reflexivity |].
    assert (He : e - Zpos p <= -53).
    { destruct (Z.compare_spec (e - Zpos p) (-53)) as [Heq | Hlt | Hgt];
        [lia | lia |].
      exfalso. revert Hhi. unfold SFleb. cbn [SFcompare].
      destruct (Z.compare_spec (e - Zpos p) (-53)); [lia | lia |].
      intros [=]. }
    destruct (digits2_pos_bound m) as [_ Hm].
    assert (Hd : Zpos (digits2_pos m) <= - e) by lia.
    split; [lia |].
    apply Z.lt_le_trans with (2 ^ Zpos (digits2_pos m)); [exact Hm |].
    apply Z.pow_le_mono_r; lia.
Qed.

Lemma scale_below_one (c : Z) (m : positive) (e : Z) :
  0 <= c <= 255 -> e <= 0 -> Zpos m < 2 ^ (- e) ->
  exists t, scale c (S754_finite false m e) = Some t /\ 0 <= t <= 255.
Proof.
  intros Hc He Hm. unfold scale, F32.mul.
  destruct (of_Z_byte c Hc) as [[-> ->] | (mc & ec & -> & Hec & Hmc)].
  - exists 0. split; [reflexivity | lia].
  - now apply mul_below_256 with (c := c).
Qed.

Lemma scalable_intro (b : spec_float) :
  (forall c, 0 <= c <= 255 -> is_Some (scale c b)) -> scalable b = true.
Proof.
  intros H. unfold scalable. apply forallb_forall. intros c Hc.
  apply list_elem_of_In, elem_of_seqZ in Hc.
  apply bool_decide_eq_true. apply H. lia.
Qed.

(** Every brightness that [setBrightness] can store from a number is one
    under which every channel converts. *)
Lemma between_scalable (b : spec_float) :
  F32.valid b = true ->
  between brightness_min brightness_max b = true ->
  scalable b = true.
Proof.
  intros Hv Hb. destruct (between_below_one b Hv Hb) as (m & e & -> & He & Hm).
  apply scalable_intro. intros c Hc.
  destruct (scale_below_one c m e Hc He Hm) as (t & Ht & _).
  now exists t.
Qed.

(** ** The driver and the zones *)

Section FirmwareFacts.
Context {board : Board}.

Lemma zone_loop (fuel : nat) (offset n color : Z) (rgb : RgbColor)
  (s : State) :
  (Z.to_nat n < fuel)%nat ->
  staged (brightness s) color = Some rgb ->
  0 <= offset ->
  offset + n <= Z.of_nat (length (pixels s)) ->
  Z.of_nat (length (pixels s)) <= 65536 ->
  exists s',
    (for_lt fuel id 0 n (fun i => setPixelColor (offset + i) color)
     >>> showPixels) s = Done s' /\
    zone_filled offset n rgb s s'.
Proof.
  intros Hfuel Hst Hoff Hfit Hlen.
  unfold andThen.
  rewrite (paint_loop fuel id n (Z.add offset) (fun _ => color)
             (fun _ => rgb) s) by (auto; lia).
  eexists. split; [reflexivity |].
  assert (Hidx : forall k, k ∈ seqZ 0 n -> 0 <= offset + k < 65536).
  { intros k Hk. apply elem_of_seqZ in Hk. lia. }
  unfold zone_filled, strip_Show. simpl.
  rewrite paint_brightness, paint_events, paint_length.
  repeat split.
  - now rewrite <- app_assoc.
  - rewrite !flushes_app, flushes_set_pixels by reflexivity.
    unfold flushes. simpl. lia.
  - intros j. case_bool_decide as Hj.
    + apply paint_const_hit; [exact Hidx | | lia].
      apply list_elem_of_fmap. exists (Z.of_nat j - offset).
      split; [lia |]. apply elem_of_seqZ. lia.
    + apply paint_miss; [exact Hidx |].
      intros Hin. apply list_elem_of_fmap in Hin as (k & Hk & Hin).
      apply elem_of_seqZ in Hin. lia.
Qed.

(** C5.  With the zones inside the pixel array, each of
    [setLargeRingColor], [setSmallRingColor] and [setStripColor] sets the
    24, 12 or 8 consecutive pixels from its offset on to the
    brightness-scaled, gamma-corrected colour, leaves every other pixel
    as it was, and flushes exactly once, after the last pixel. *)
Theorem zone_setters_fill (color : Z) (rgb : RgbColor) (s : State) :
  wf_state s ->
  staged (brightness s) color = Some rgb ->
  0 <= LARGE_RING_OFFSET /\ LARGE_RING_OFFSET + 24 <= to_u16 PIXEL_COUNT ->
  0 <= SMALL_RING_OFFSET /\ SMALL_RING_OFFSET + 12 <= to_u16 PIXEL_COUNT ->
  0 <= STRIP_OFFSET /\ STRIP_OFFSET + 8 <= to_u16 PIXEL_COUNT ->
  (exists s', setLargeRingColor color s = Done s' /\
              zone_filled LARGE_RING_OFFSET 24 rgb s s') /\
  (exists s', setSmallRingColor color s = Done s' /\
              zone_filled SMALL_RING_OFFSET 12 rgb s s') /\
  (exists s', setStripColor color s = Done s' /\
              zone_filled STRIP_OFFSET 8 rgb s s').
Proof.
  intros Hwf Hst HL HS HT. unfold wf_state in Hwf.
  assert (Hlen : Z.of_nat (length (pixels s)) = to_u16 PIXEL_COUNT).
  { rewrite Hwf. apply Z2Nat.id. unfold to_u16.
    apply Z.mod_pos_bound. lia. }
  assert (Hmax : to_u16 PIXEL_COUNT < 65536)
    by (unfold to_u16; apply Z.mod_pos_bound; lia).
  repeat split; apply zone_loop; simpl; try assumption; lia.
Qed.

(** C6.  [clearAllPixels] calls [setPixelColor i 0] for each of the
    [PIXEL_COUNT] pixels and flushes exactly once; every pixel then holds
    the gamma-corrected black, which is black when entry 0 of the table
    is 0. *)
Theorem clearAllPixels_clears (s : State) :
  wf_state s ->
  is_finite (brightness s) = true ->
  0 <= PIXEL_COUNT <= 65535 ->
  exists s',
    clearAllPixels s = Done s' /\
    events s' =
      events s
      ++ map (fun i => EvSetPixelColor i (colorGamma_Correct black))
             (seqZ 0 PIXEL_COUNT)
      ++ [EvShow] /\
    flushes (events s') = S (flushes (events s)) /\
    pixels s' = replicate (Z.to_nat PIXEL_COUNT) (colorGamma_Correct black) /\
    leds s' = pixels s' /\
    (gammaTable 0 = 0 ->
     pixels s' = replicate (Z.to_nat PIXEL_COUNT) black).
Proof.
  intros Hwf Hfin Hcount. unfold wf_state, to_u16 in Hwf.
  rewrite Z.mod_small in Hwf by lia.
  destruct (zone_loop (S (Z.to_nat PIXEL_COUNT)) 0 PIXEL_COUNT 0
              (colorGamma_Correct black) s)
    as (s' & Hrun & Hb & Hev & Hfl & Hleds & Hlen & Hpx);
    [lia | now apply staged_zero_color | lia | lia | lia |].
  exists s'. split; [exact Hrun |].
  assert (Hall : pixels s'
                 = replicate (Z.to_nat PIXEL_COUNT) (colorGamma_Correct black)).
  { apply list_eq. intros j. rewrite Hpx.
    case_bool_decide as Hj.
    - symmetry. apply lookup_replicate_2. lia.
    - rewrite (proj1 (lookup_replicate_None _ _ _)) by lia.
      apply lookup_ge_None. lia. }
  repeat split; try assumption.
  intros Hg. rewrite Hall. unfold colorGamma_Correct, black. simpl.
  now rewrite Hg.
Qed.

(** C7.  [setPixelColor index color] reads blue, green and red from
    [color] by mask and shift, multiplies each by the brightness, converts
    to 8 bits, passes the three through the gamma table and hands the
    result to the bus at [index]: one buffer write, no flush, the LEDs
    unchanged. *)
Theorem setPixelColor_stages (index color : Z) (s : State) (r g b : Z) :
  u8_of_float (F32.mul (F32.of_Z (Z.land color 255)) (brightness s))
    = Some b ->
  u8_of_float
    (F32.mul (F32.of_Z (Z.land (Z.shiftr color 8) 255)) (brightness s))
    = Some g ->
  u8_of_float
    (F32.mul (F32.of_Z (Z.land (Z.shiftr (Z.shiftr color 8) 8) 255))
             (brightness s))
    = Some r ->
  exists s',
    setPixelColor index color s = Done s' /\
    events s' =
      events s
      ++ [EvSetPixelColor index
            (mkRgb (gammaTable r) (gammaTable g) (gammaTable b))] /\
    flushes (events s') = flushes (events s) /\
    leds s' = leds s /\
    brightness s' = brightness s /\
    (0 <= index < 65536 ->
     pixels s' =
       if index <? Z.of_nat (length (pixels s))
       then <[Z.to_nat index :=
                mkRgb (gammaTable r) (gammaTable g) (gammaTable b)]>
              (pixels s)
       else pixels s).
Proof.
  intros Hb Hg Hr. unfold setPixelColor, scale.
  rewrite Hb, Hg, Hr. eexists. split; [reflexivity |].
  unfold strip_SetPixelColor, colorGamma_Correct. simpl.
  repeat split.
  - rewrite flushes_app. unfold flushes. simpl. lia.
  - intros Hi. unfold to_u16. now rewrite Z.mod_small by lia.
Qed.

(** *** rainbowCycle *)

Lemma wheel_position (i j : Z) :
  0 <= i -> 0 < PIXEL_COUNT ->
  to_u8 (Z.land (Z.quot (i * 256) PIXEL_COUNT + j) 255)
  = (i * 256 / PIXEL_COUNT + j) mod 256.
Proof.
  intros Hi Hn. rewrite Z.quot_div_nonneg by lia.
  rewrite low_byte. unfold to_u8. change (2 ^ 8) with 256.
  apply Z.mod_mod. lia.
Qed.

Lemma flushes_rainbow (b : spec_float) (wait : Z) (js : list Z) :
  flushes (concat (map (rainbow_frame b wait) js)) = length js.
Proof.
  induction js as [| j js IH]; [reflexivity |].
  simpl. rewrite flushes_app, IH. unfold rainbow_frame.
  rewrite flushes_app, flushes_set_pixels by reflexivity. reflexivity.
Qed.

Lemma events_foldl (step : Z -> State -> State) (frame : Z -> list Event)
  (js : list Z) :
  (forall j s, events (step j s) = events s ++ frame j) ->
  forall s,
    events (foldl (fun s j => step j s) s js)
    = events s ++ concat (map frame js).
Proof.
  intros Hstep. induction js as [| j js IH]; intros s; simpl.
  - now rewrite app_nil_r.
  - now rewrite IH, Hstep, <- app_assoc.
Qed.

(** C4.  With [PIXEL_COUNT] within the range of the [uint16_t] loop
    variable, [rainbowCycle wait] returns after 768 steps; step [j] sets
    pixel [i], for each of the [PIXEL_COUNT] pixels in order, to
    [wheel ((i * 256 / PIXEL_COUNT + j) mod 256)], then flushes once and
    delays: 768 flushes in all. *)
Theorem rainbowCycle_frames (fuel : nat) (wait : Z) (s : State) :
  PIXEL_COUNT <= 65535 ->
  (Z.to_nat PIXEL_COUNT < fuel)%nat ->
  scalable (brightness s) = true ->
  exists s',
    rainbowCycle fuel wait s = Done s' /\
    events s' =
      events s
      ++ concat (map (rainbow_frame (brightness s) wait) (seqZ 0 768)) /\
    flushes (events s') = (flushes (events s) + 768)%nat /\
    brightness s' = brightness s.
Proof.
  intros Hcount Hfuel Hsc.
  set (b := brightness s).
  set (col := fun j i : Z =>
         Colors.wheel
           (to_u8 (Z.land (Z.quot (i * 256) PIXEL_COUNT + j) 255))).
  set (step := fun (j : Z) (s0 : State) =>
         delay wait
           (strip_Show
              (paint (fun i => i) (fun i => adjusted b (col j i))
                     (seqZ 0 PIXEL_COUNT) s0))).
  destruct (for_lt_from to_u16 (256 * 3)
              (fun j =>
                 for_lt fuel to_u16 0 PIXEL_COUNT
                   (fun i => setPixelColor i (col j i))
                 >>> showPixels >>> lift (delay wait))
              step (fun s0 => brightness s0 = b))
    with (fuel := 769%nat) (i := 0) (s := s) as [Hrun Hb].
  - intros k Hk. unfold to_u16. apply Z.mod_small. lia.
  - intros j s0 Hj Hb0. unfold andThen at 1.
    rewrite (paint_loop fuel to_u16 PIXEL_COUNT (fun i => i) (col j)
               (fun i => adjusted b (col j i)) s0).
    + split; [reflexivity |]. unfold step. simpl.
      now rewrite paint_brightness.
    + intros k Hk. unfold to_u16. apply Z.mod_small. lia.
    + intros k Hk. rewrite Hb0. now apply staged_scalable.
    + exact Hfuel.
  - lia.
  - simpl. lia.
  - reflexivity.
  - change (256 * 3 - 0) with 768 in Hrun, Hb.
    eexists. split; [exact Hrun |].
    assert (Hev : events (foldl (fun s0 j => step j s0) s (seqZ 0 768))
                  = events s
                    ++ concat (map (rainbow_frame b wait) (seqZ 0 768))).
    { rewrite (events_foldl step (rainbow_frame b wait)); [reflexivity |].
      intros j s0. unfold step, delay, strip_Show, emit. simpl.
      rewrite paint_events, <- 2 List.app_assoc. f_equal.
      unfold rainbow_frame. simpl. f_equal.
      apply map_ext_in. intros i Hi.
      apply list_elem_of_In, elem_of_seqZ in Hi.
      unfold col. now rewrite wheel_position by lia. }
    rewrite Hev. repeat split; [| exact Hb].
    rewrite flushes_app, flushes_rainbow, length_seqZ. lia.
Qed.

(** When [PIXEL_COUNT] is beyond the [uint16_t] range the inner loop
    variable wraps before it reaches the bound: no amount of fuel lets
    [rainbowCycle] return. *)
Lemma for_lt_u16_spins (bound : Z) (body : Z -> cmd) (P : State -> Prop) :
  65535 < bound ->
  (forall k s, P s -> exists s', body k s = Done s' /\ P s') ->
  forall fuel i s,
    0 <= i <= 65535 -> P s -> for_lt fuel to_u16 i bound body s = Timeout.
Proof.
  intros Hbound Hbody. induction fuel as [| fuel IH]; intros i s Hi HP;
    [reflexivity |].
  simpl. destruct (Z.ltb_spec i bound); [| lia].
  unfold andThen. destruct (Hbody i s HP) as (s' & -> & HP').
  apply IH; [| exact HP'].
  unfold to_u16. pose proof (Z.mod_pos_bound (i + 1) (2 ^ 16)). lia.
Qed.

Lemma rainbowCycle_spins (fuel : nat) (wait : Z) (s : State) :
  65535 < PIXEL_COUNT ->
  scalable (brightness s) = true ->
  rainbowCycle fuel wait s = Timeout.
Proof.
  intros Hcount Hsc. unfold rainbowCycle.
  rewrite for_lt_unfold. change (0 <? 256 * 3) with true. cbv iota.
  unfold andThen at 1. unfold andThen at 1.
  rewrite (for_lt_u16_spins PIXEL_COUNT _
             (fun s0 => brightness s0 = brightness s) Hcount);
    [reflexivity | | lia | reflexivity].
  intros k s0 Hb. rewrite setPixelColor_staged, Hb.
  rewrite staged_scalable by assumption. eexists. split; [reflexivity |].
  exact Hb.
Qed.

(** C10.  The brightness starts at 0.0, which is not within the clamp
    bounds, and no call other than [setBrightness] changes it,
    [initPixels] included; as long as that is so every [setPixelColor]
    scales the three channels to 0 and stages the gamma-corrected black,
    whatever the colour. *)
Theorem dark_until_setBrightness (cs : list Call) (s : State) :
  forallb (fun c => negb (is_setBrightness c)) cs = true ->
  run_all cs boot = Done s ->
  brightness boot = S754_zero false /\
  (forall s0 s1, initPixels s0 = Done s1 -> brightness s1 = brightness s0) /\
  brightness s = S754_zero false /\
  between brightness_min brightness_max (brightness s) = false /\
  forall index color,
    scale (red_of color) (brightness s) = Some 0 /\
    scale (green_of color) (brightness s) = Some 0 /\
    scale (blue_of color) (brightness s) = Some 0 /\
    setPixelColor index color s
      = Done (strip_SetPixelColor index (colorGamma_Correct black) s) /\
    (gammaTable 0 = 0 -> colorGamma_Correct black = black).
Proof.
  intros Hcs Hrun.
  assert (Hb : brightness s = S754_zero false)
    by exact (run_all_keeps_brightness cs Hcs boot s Hrun).
  split; [reflexivity |]. split.
  { intros s0 s1 H1.
    exact (keeps_run _ (brightness_stable (brightness s0)) CallInitPixels
             eq_refl s0 s1 H1 eq_refl). }
  split; [exact Hb |]. rewrite Hb. split; [reflexivity |].
  intros index color.
  destruct (channels_bytes color) as (Hr & Hg & Hbl).
  rewrite !scale_zero_brightness by assumption.
  repeat split.
  - now rewrite setPixelColor_staged, Hb, staged_zero_brightness.
  - intros Hg0. unfold colorGamma_Correct, black. simpl. now rewrite Hg0.
Qed.
End FirmwareFacts.

(** ** No call runs into an undefined conversion *)

Lemma brightness_ok_scalable (s : State) :
  brightness_ok s -> scalable (brightness s) = true.
Proof.
  intros [-> | [Hv Hb]]; [vm_compute; reflexivity |].
  now apply between_scalable.
Qed.

Lemma safe_andThen P c1 c2 : safe P c1 -> safe P c2 -> safe P (c1 >>> c2).
Proof.
  intros H1 H2 s HP. unfold andThen.
  destruct (H1 s HP) as [Hdef Hkeep].
  destruct (c1 s) as [s1 | |]; [| contradiction | split; discriminate].
  apply H2, Hkeep. reflexivity.
Qed.

Lemma safe_lift P f : (forall s, P s -> P (f s)) -> safe P (lift f).
Proof.
  intros Hf s HP. split; [discriminate |]. intros s' [= <-]. now apply Hf.
Qed.

Lemma safe_for_lt P fuel conv bound body :
  (forall k, safe P (body k)) ->
  forall i, safe P (for_lt fuel conv i bound body).
Proof.
  intros Hbody. induction fuel as [| fuel IH]; intros i s HP.
  - split; discriminate.
  - rewrite for_lt_unfold. destruct (i <? bound).
    + apply safe_andThen; [apply Hbody | apply IH | exact HP].
    + split; [discriminate |]. now intros s' [= <-].
Qed.

Section Safety.
Context {board : Board}.

Lemma safe_setPixelColor num color :
  safe brightness_ok (setPixelColor num color).
Proof.
  intros s Hok. rewrite setPixelColor_staged.
  rewrite staged_scalable by now apply brightness_ok_scalable.
  split; [discriminate |]. intros s' [= <-]. exact Hok.
Qed.

Lemma safe_showPixels : safe brightness_ok showPixels.
Proof. apply safe_lift. intros s Hok. exact Hok. Qed.

Lemma safe_setBrightness value :
  F32.valid value = true -> is_nan value = false ->
  safe brightness_ok (setBrightness value).
Proof.
  intros Hv Hn s _. rewrite (setBrightness_stores value s Hv).
  split; [discriminate |]. intros s' [= <-].
  right. cbn [brightness]. split; [| now apply clamp_between].
  destruct (SFltb _ _); [reflexivity |].
  destruct (SFltb _ _); [reflexivity | exact Hv].
Qed.

Lemma safe_run (c : Call) :
  numeric_call c = true -> safe brightness_ok (run c).
Proof.
  destruct c; simpl; intros Hc.
  - apply andb_prop in Hc as [Hv Hn]. apply negb_true_iff in Hn.
    now apply safe_setBrightness.
  - apply safe_andThen; apply safe_lift; auto.
  - apply safe_setPixelColor.
  - apply safe_andThen; [apply safe_for_lt; intros k |];
      [apply safe_setPixelColor | apply safe_showPixels].
  - apply safe_andThen; [apply safe_for_lt; intros k |];
      [apply safe_setPixelColor | apply safe_showPixels].
  - apply safe_showPixels.
  - apply safe_andThen; [apply safe_for_lt; intros k |];
      [apply safe_setPixelColor | apply safe_showPixels].
  - apply safe_andThen; [apply safe_for_lt; intros k |];
      [apply safe_setPixelColor | apply safe_showPixels].
  - apply safe_andThen; [apply safe_for_lt; intros k |];
      [apply safe_setPixelColor | apply safe_showPixels].
  - apply safe_for_lt. intros j.
    apply safe_andThen;
      [apply safe_for_lt; intros k; apply safe_setPixelColor |].
    apply safe_andThen; [apply safe_showPixels |].
    apply safe_lift. auto.
Qed.

(** From start-up on, as long as [setBrightness] is given numbers, no
    call has undefined behaviour and the brightness stays 0.0 or within
    the clamp bounds. *)
Lemma run_all_safe (cs : list Call) :
  forallb numeric_call cs = true -> safe brightness_ok (run_all cs).
Proof.
  induction cs as [| c cs IH]; simpl; intros Hcs.
  - intros s Hok. split; [discriminate |]. now intros s' [= <-].
  - apply andb_prop in Hcs as [Hc Hcs].
    apply safe_andThen; [now apply safe_run | now apply IH].
Qed.

Lemma boot_ok : brightness_ok boot.
Proof. now left. Qed.
End Safety.

(** ** The statements on the 44-pixel clock *)

Lemma zone_setters_fill_witness :
  (exists s', setLargeRingColor (board := clock_board) 16744448 lit_state
              = Done s' /\
              zone_filled 0 24 (mkRgb 127 64 0) lit_state s') /\
  (exists s', setSmallRingColor (board := clock_board) 16744448 lit_state
              = Done s' /\
              zone_filled 24 12 (mkRgb 127 64 0) lit_state s') /\
  (exists s', setStripColor (board := clock_board) 16744448 lit_state
              = Done s' /\
              zone_filled 36 8 (mkRgb 127 64 0) lit_state s').
Proof.
  apply (zone_setters_fill (board := clock_board) 16744448 (mkRgb 127 64 0)
           lit_state);
    [reflexivity | reflexivity | | |]; vm_compute; split; discriminate.
Defined.

Lemma clearAllPixels_clears_witness :
  exists s',
    clearAllPixels (board := clock_board) lit_state = Done s' /\
    events s' =
      events lit_state
      ++ map (fun i => EvSetPixelColor i black) (seqZ 0 44) ++ [EvShow] /\
    flushes (events s') = S (flushes (events lit_state)) /\
    pixels s' = replicate 44 black /\
    leds s' = pixels s' /\
    (0 = 0 -> pixels s' = replicate 44 black).
Proof.
  apply (clearAllPixels_clears (board := clock_board) lit_state);
    [reflexivity | reflexivity | vm_compute; split; discriminate].
Defined.

Lemma setPixelColor_stages_witness :
  exists s',
    setPixelColor (board := clock_board) 5 16744448 lit_state = Done s' /\
    events s' = events lit_state ++ [EvSetPixelColor 5 (mkRgb 127 64 0)] /\
    flushes (events s') = flushes (events lit_state) /\
    leds s' = leds lit_state /\
    brightness s' = brightness lit_state /\
    (0 <= 5 < 65536 ->
     pixels s' =
       if 5 <? Z.of_nat (length (pixels lit_state))
       then <[Z.to_nat 5 := mkRgb 127 64 0]> (pixels lit_state)
       else pixels lit_state).
Proof.
  apply (setPixelColor_stages (board := clock_board) 5 16744448 lit_state
           127 64 0); reflexivity.
Defined.

Lemma rainbowCycle_frames_witness :
  exists s',
    rainbowCycle (board := clock_board) 45 10 lit_state = Done s' /\
    events s' =
      events lit_state
      ++ concat (map (rainbow_frame (board := clock_board) half 10)
                     (seqZ 0 768)) /\
    flushes (events s') = (flushes (events lit_state) + 768)%nat /\
    brightness s' = brightness lit_state.
Proof.
  apply (rainbowCycle_frames (board := clock_board) 45 10 lit_state);
    [vm_compute; discriminate | vm_compute; lia | vm_compute; reflexivity].
Defined.

Lemma dark_until_setBrightness_witness :
  brightness (boot (board := clock_board)) = S754_zero false /\
  (forall s0 s1, initPixels s0 = Done s1 -> brightness s1 = brightness s0) /\
  brightness dark_state = S754_zero false /\
  between brightness_min brightness_max (brightness dark_state) = false /\
  forall index color,
    scale (red_of color) (brightness dark_state) = Some 0 /\
    scale (green_of color) (brightness dark_state) = Some 0 /\
    scale (blue_of color) (brightness dark_state) = Some 0 /\
    setPixelColor (board := clock_board) index color dark_state
      = Done (strip_SetPixelColor index
                (colorGamma_Correct (board := clock_board) black) dark_state) /\
    (0 = 0 -> colorGamma_Correct (board := clock_board) black = black).
Proof.
  apply (dark_until_setBrightness (board := clock_board) dark_calls dark_state);
    vm_compute; reflexivity.
Defined.

(** * Further properties *)

(** ** Bits of a packed colour *)

Lemma testbit_u32 (x n : Z) :
  Z.testbit (to_u32 x) n = (n <? 32) && Z.testbit x n.
Proof.
  unfold to_u32. destruct (Z.ltb_spec n 32).
  - now rewrite Z.mod_pow2_bits_low.
  - now rewrite Z.mod_pow2_bits_high by lia.
Qed.

Lemma testbit_shl8 (x n : Z) :
  Z.testbit (Z.shiftl x 8) n = Z.testbit x (n - 8).
Proof.
  destruct (Z.le_gt_cases 0 n); [now apply Z.shiftl_spec |].
  now rewrite !Z.testbit_neg_r by lia.
Qed.

(** Bit [n] of [createColor red green blue], for every [int] argument:
    bit [n] of blue, or bit [n - 8] of green, or bit [n - 16] of red. *)
Lemma createColor_bits (red green blue n : Z) :
  Z.testbit (Colors.createColor red green blue) n =
    (n <? 32)
    && (Z.testbit blue n || Z.testbit green (n - 8)
        || Z.testbit red (n - 16)).
Proof.
  unfold Colors.createColor.
  rewrite !Z.lor_spec, !testbit_u32, testbit_shl8, Z.lor_spec, !testbit_u32,
    testbit_shl8, testbit_u32.
  replace (n - 8 - 8) with (n - 16) by lia.
  destruct (Z.ltb_spec n 32), (Z.ltb_spec (n - 8) 32),
    (Z.ltb_spec (n - 16) 32); try lia; cbn [andb orb];
    rewrite ?orb_false_r;
    destruct (Z.testbit blue n), (Z.testbit green (n - 8)),
      (Z.testbit red (n - 16)); reflexivity.
Qed.

Lemma byte_high_bits (x n : Z) :
  0 <= x <= 255 -> 8 <= n -> Z.testbit x n = false.
Proof.
  intros Hx Hn. rewrite <- (Z.mod_small x (2 ^ 8)) by lia.
  apply Z.mod_pow2_bits_high. lia.
Qed.

Lemma testbit_byte (x n : Z) :
  Z.testbit (x mod 256) n = (n <? 8) && Z.testbit x n.
Proof.
  change 256 with (2 ^ 8). destruct (Z.ltb_spec n 8).
  - now rewrite Z.mod_pow2_bits_low.
  - now rewrite Z.mod_pow2_bits_high by lia.
Qed.

Lemma testbit_low_byte (x n : Z) :
  0 <= n -> Z.testbit (Z.land x 255) n = (n <? 8) && Z.testbit x n.
Proof.
  intros Hn. rewrite Z.land_spec. change 255 with (Z.ones 8).
  rewrite Z.testbit_ones_nonneg by lia. apply andb_comm.
Qed.

(** X1.  For any [int] arguments the blue channel of [createColor] is the
    low byte of blue; the green channel is the low byte of green as soon as
    blue is within 0..255, and the red channel the low byte of red as soon
    as green and blue are: an oversized channel spills only into the
    channels above it. *)
Theorem createColor_overflow_goes_up (red green blue : Z) :
  blue_of (Colors.createColor red green blue) = blue mod 256 /\
  (0 <= blue <= 255 ->
   green_of (Colors.createColor red green blue) = green mod 256) /\
  (0 <= green <= 255 -> 0 <= blue <= 255 ->
   red_of (Colors.createColor red green blue) = red mod 256).
Proof.
  unfold red_of, green_of, blue_of, channels. cbn [fst snd].
  split; [| split].
  - apply Z.bits_inj'. intros n Hn.
    rewrite testbit_low_byte, testbit_byte, createColor_bits by lia.
    destruct (Z.ltb_spec n 8); [| reflexivity].
    destruct (Z.ltb_spec n 32); [| lia].
    rewrite (Z.testbit_neg_r green), (Z.testbit_neg_r red) by lia.
    now rewrite !orb_false_r.
  - intros Hb. apply Z.bits_inj'. intros n Hn.
    rewrite testbit_low_byte, testbit_byte, Z.shiftr_spec, createColor_bits
      by lia.
    destruct (Z.ltb_spec n 8); [| reflexivity].
    destruct (Z.ltb_spec (n + 8) 32); [| lia].
    rewrite (byte_high_bits blue), (Z.testbit_neg_r red) by lia.
    replace (n + 8 - 8) with n by lia. cbn [andb orb].
    now rewrite orb_false_r.
  - intros Hg Hb. apply Z.bits_inj'. intros n Hn.
    rewrite testbit_low_byte, testbit_byte, !Z.shiftr_spec, createColor_bits
      by lia.
    destruct (Z.ltb_spec n 8); [| reflexivity].
    destruct (Z.ltb_spec (n + 8 + 8) 32); [| lia].
    rewrite (byte_high_bits blue), (byte_high_bits green) by lia.
    replace (n + 8 + 8 - 16) with n by lia. reflexivity.
Qed.

Lemma createColor_overflow_goes_up_witness :
  green_of (Colors.createColor 300 200 7) = 200 mod 256 /\
  red_of (Colors.createColor 300 200 7) = 300 mod 256.
Proof.
  destruct (createColor_overflow_goes_up 300 200 7) as (_ & Hg & Hr).
  split; [apply Hg | apply Hr]; lia.
Defined.

(** X2.  On channels within 0..255 [createColor] yields a 24-bit value
    and is injective. *)
Theorem createColor_injective (r g b r' g' b' : Z) :
  0 <= r <= 255 -> 0 <= g <= 255 -> 0 <= b <= 255 ->
  0 <= r' <= 255 -> 0 <= g' <= 255 -> 0 <= b' <= 255 ->
  0 <= Colors.createColor r g b < 2 ^ 24 /\
  (Colors.createColor r g b = Colors.createColor r' g' b' ->
   r = r' /\ g = g' /\ b = b').
Proof.
  intros Hr Hg Hb Hr' Hg' Hb'.
  rewrite !createColor_in_range by assumption.
  change (2 ^ 24) with 16777216. split; lia.
Qed.

Lemma createColor_injective_witness :
  0 <= Colors.createColor 1 2 3 < 2 ^ 24 /\
  (Colors.createColor 1 2 3 = Colors.createColor 1 2 3 ->
   1 = 1 /\ 2 = 2 /\ 3 = 3).
Proof. apply createColor_injective; lia. Defined.

(** X3.  For positions 0..255 [wheel] yields a 24-bit colour, and two
    positions give the same colour exactly when they are equal or are 0
    and 255. *)
Theorem wheel_distinct_colours (a b : Z) :
  0 <= a <= 255 -> 0 <= b <= 255 ->
  0 <= Colors.wheel a < 2 ^ 24 /\
  (Colors.wheel a = Colors.wheel b <->
   a = b \/ (a = 0 /\ b = 255) \/ (a = 255 /\ b = 0)).
Proof.
  intros Ha Hb. split.
  - unfold Colors.wheel, to_u8.
    destruct (Z.ltb_spec a 85); [| destruct (Z.ltb_spec a 170)];
      rewrite ?Z.mod_small by lia;
      rewrite createColor_in_range by lia;
      change (2 ^ 24) with 16777216; lia.
  - split.
    + intros Heq. apply (f_equal channels) in Heq.
      rewrite !wheel_channels in Heq by assumption.
      destruct (Z.ltb_spec a 85), (Z.ltb_spec a 170), (Z.ltb_spec b 85),
        (Z.ltb_spec b 170); try lia;
        apply pair_equal_spec in Heq as [Heq Hblue];
        apply pair_equal_spec in Heq as [Hred Hgreen]; lia.
    + intros [-> | [[-> ->] | [-> ->]]]; reflexivity.
Qed.

Lemma wheel_distinct_colours_witness :
  0 <= Colors.wheel 17 < 2 ^ 24 /\
  (Colors.wheel 17 = Colors.wheel 200 <->
   17 = 200 \/ (17 = 0 /\ 200 = 255) \/ (17 = 255 /\ 200 = 0)).
Proof. apply wheel_distinct_colours; lia. Defined.

(** The product of a byte [c] and a [float] below 1, rounded and then
    truncated, is at most [c]. *)
Lemma mul_at_most (mc mb : positive) (ec eb c : Z) :
  ec <= 0 -> eb <= 0 ->
  Zpos mc = c * 2 ^ (- ec) -> 0 <= c <= 255 ->
  Zpos mb < 2 ^ (- eb) ->
  exists t,
    u8_of_float
      (SFmul 24 128 (S754_finite false mc ec) (S754_finite false mb eb))
    = Some t /\ 0 <= t <= c.
Proof.
  intros Hec Heb Hmc Hc Hmb.
  cbn [SFmul xorb]. unfold binary_round_aux.
  set (P := Zpos (mc * mb)). set (E := ec + eb).
  assert (HE : E <= 0) by (unfold E; lia).
  assert (HpE : 0 < 2 ^ (- E)) by (apply Z.pow_pos_nonneg; lia).
  assert (HP : 0 <= P < c * 2 ^ (- E)).
  { unfold P, E. rewrite Pos2Z.inj_mul, Hmc.
    replace (- (ec + eb)) with (- ec + - eb) by lia.
    rewrite Z.pow_add_r by lia.
    assert (0 < 2 ^ (- ec)) by (apply Z.pow_pos_nonneg; lia).
    assert (0 < 2 ^ (- eb)) by (apply Z.pow_pos_nonneg; lia).
    assert (0 < c) by nia. split; [nia |]. nia. }
  assert (HP8 : 0 <= P < 2 ^ (8 - E)).
  { replace (8 - E) with (8 + - E) by lia. rewrite Z.pow_add_r by lia.
    change (2 ^ 8) with 256. nia. }
  destruct (shr_fexp_below P E loc_Exact HP8 HE) as (He1 & Hm1 & Hm1P).
  destruct (shr_fexp 24 128 P E loc_Exact) as [mrs1 e1].
  cbn [fst snd] in He1, Hm1, Hm1P.
  set (m2 := round_nearest_even (shr_m mrs1) (loc_of_shr_record mrs1)).
  assert (Hm2 : shr_m mrs1 <= m2 <= shr_m mrs1 + 1)
    by apply round_nearest_even_bound.
  assert (Hp1 : 0 < 2 ^ (e1 - E)) by (apply Z.pow_pos_nonneg; lia).
  assert (Hp1' : 2 ^ (e1 - E) <= 2 ^ (- E))
    by (apply Z.pow_le_mono_r; lia).
  assert (Hv2 : m2 * 2 ^ (e1 - E) < (c + 1) * 2 ^ (- E)) by nia.
  assert (Hm2b : 0 <= m2 < 2 ^ (8 - e1)).
  { split; [lia |]. apply pow_cancel with (a := e1 - E); [lia | lia |].
    replace (8 - e1 + (e1 - E)) with (8 - E) by lia.
    replace (8 - E) with (8 + - E) by lia. rewrite Z.pow_add_r by lia.
    change (2 ^ 8) with 256. nia. }
  destruct (shr_fexp_below m2 e1 loc_Exact Hm2b ltac:(lia))
    as (He3 & Hm3 & Hm3m).
  destruct (shr_fexp 24 128 m2 e1 loc_Exact) as [mrs3 e3].
  cbn [fst snd] in He3, Hm3, Hm3m.
  assert (Hv3 : shr_m mrs3 * 2 ^ (e3 - E) < (c + 1) * 2 ^ (- E)).
  { replace (e3 - E) with ((e3 - e1) + (e1 - E)) by lia.
    rewrite Z.pow_add_r by lia.
    assert (0 < 2 ^ (e3 - e1)) by (apply Z.pow_pos_nonneg; lia). nia. }
  destruct (shr_m mrs3) as [| m3 | m3] eqn:Hs3; [| | lia].
  - exists 0. split; [reflexivity | lia].
  - destruct (Z.leb_spec e3 (128 - 24)); [| lia].
    unfold u8_of_float, truncate, cond_Zopp.
    destruct e3 as [| p3 | p3]; [| lia |].
    + change (2 ^ 0) with 1. rewrite Z.mul_1_r.
      replace (0 - E) with (- E) in Hv3 by lia.
      assert (Hle : Zpos m3 <= c) by nia.
      exists (Zpos m3).
      destruct (Z.leb_spec 0 (Zpos m3)), (Z.leb_spec (Zpos m3) 255);
        try lia. split; [reflexivity | lia].
    + set (t := Zpos m3 / 2 ^ Zpos p3).
      assert (Hp3 : 0 < 2 ^ Zpos p3) by (apply Z.pow_pos_nonneg; lia).
      assert (Ht0 : 0 <= t) by (apply Z.div_pos; lia).
      assert (Htm : t * 2 ^ Zpos p3 <= Zpos m3) by (apply div_pow_le; lia).
      assert (HA : 0 < 2 ^ (Zneg p3 - E)) by (apply Z.pow_pos_nonneg; lia).
      assert (Hsplit : 2 ^ (- E) = 2 ^ Zpos p3 * 2 ^ (Zneg p3 - E)).
      { rewrite <- Z.pow_add_r by lia. f_equal. lia. }
      rewrite Hsplit in Hv3.
      assert (Hle : t <= c).
      { revert Hv3 Htm Hp3 HA Ht0.
        generalize (2 ^ Zpos p3) (2 ^ (Zneg p3 - E)) (Zpos m3).
        intros B A m Hv3 Htm HB HA Ht0.
        assert (t * B * A < (c + 1) * (B * A)) by nia.
        assert (0 < B * A) by nia. nia. }
      exists t.
      destruct (Z.leb_spec 0 t), (Z.leb_spec t 255); try lia.
      split; [reflexivity | lia].
Qed.

Section More.
Context {board : Board}.

Lemma scale_at_most (s : State) (c : Z) :
  brightness_ok s -> 0 <= c <= 255 ->
  exists t, scale c (brightness s) = Some t /\ 0 <= t <= c.
Proof.
  intros [Hz | [Hv Hb]] Hc.
  - rewrite Hz, scale_zero_brightness by assumption.
    exists 0. split; [reflexivity | lia].
  - destruct (between_below_one _ Hv Hb) as (m & e & -> & He & Hm).
    unfold scale, F32.mul.
    destruct (of_Z_byte c Hc) as [[-> ->] | (mc & ec & -> & Hec & Hmc)].
    + exists 0. split; [reflexivity | lia].
    + now apply mul_at_most.
Qed.

(** X4.  With a brightness of 0.0 or within the clamp bounds, every channel
    0..255 scales to a defined 8-bit value that is at most the channel
    itself. *)
Theorem scale_never_brightens (s : State) (c : Z) :
  brightness_ok s -> 0 <= c <= 255 ->
  exists t, scale c (brightness s) = Some t /\ 0 <= t <= c.
Proof. apply scale_at_most. Qed.

Lemma channels_low24 (color : Z) :
  channels (color mod 2 ^ 24) = channels color.
Proof.
  unfold channels. rewrite !pair_equal_spec.
  repeat split; apply Z.bits_inj'; intros n Hn;
    rewrite !testbit_low_byte, ?Z.shiftr_spec by lia;
    (destruct (Z.ltb_spec n 8); [| reflexivity]);
    now rewrite Z.mod_pow2_bits_low by lia.
Qed.

Lemma staged_low24 (b : spec_float) (color : Z) :
  staged b (color mod 2 ^ 24) = staged b color.
Proof.
  unfold staged, red_of, green_of, blue_of. now rewrite channels_low24.
Qed.

(** X5.  [setPixelColor] ignores bits 24 and up of its colour. *)
Theorem setPixelColor_ignores_top_byte (num color : Z) (s : State) :
  setPixelColor num (color mod 2 ^ 24) s = setPixelColor num color s.
Proof. now rewrite !setPixelColor_staged, staged_low24. Qed.

(** X6.  [setPixelColor num (createColor red green blue)], for channels
    within 0..255 and a brightness of 0.0 or within the clamp bounds, hands
    the bus the gamma entries of the three scaled channels, each scaled
    channel being at most the channel passed to [createColor]. *)
Theorem setPixelColor_of_createColor (num red green blue : Z) (s : State) :
  0 <= red <= 255 -> 0 <= green <= 255 -> 0 <= blue <= 255 ->
  brightness_ok s ->
  exists r g b,
    scale red (brightness s) = Some r /\ 0 <= r <= red /\
    scale green (brightness s) = Some g /\ 0 <= g <= green /\
    scale blue (brightness s) = Some b /\ 0 <= b <= blue /\
    setPixelColor num (Colors.createColor red green blue) s
    = Done (strip_SetPixelColor num
              (mkRgb (gammaTable r) (gammaTable g) (gammaTable b)) s).
Proof.
  intros Hr Hg Hb Hok.
  destruct (scale_at_most s red Hok Hr) as (r & Hsr & Hrr).
  destruct (scale_at_most s green Hok Hg) as (g & Hsg & Hgg).
  destruct (scale_at_most s blue Hok Hb) as (b & Hsb & Hbb).
  exists r, g, b. repeat split; try assumption; try lia.
  rewrite setPixelColor_staged. unfold staged, red_of, green_of, blue_of.
  rewrite channels_createColor by assumption. cbn [fst snd].
  now rewrite Hsr, Hsg, Hsb.
Qed.
End More.

Section Driver.
Context {board : Board}.

(** X7.  [setAllPixels color] sets each of the [PIXEL_COUNT] pixels to the
    staged colour, in index order, and flushes once: afterwards frame
    buffer and LEDs hold that colour everywhere, whatever they held
    before. *)
Theorem setAllPixels_fills (color : Z) (rgb : RgbColor) (s : State) :
  wf_state s ->
  staged (brightness s) color = Some rgb ->
  0 <= PIXEL_COUNT <= 65535 ->
  exists s',
    setAllPixels color s = Done s' /\
    events s' =
      events s ++ map (fun i => EvSetPixelColor i rgb) (seqZ 0 PIXEL_COUNT)
               ++ [EvShow] /\
    flushes (events s') = S (flushes (events s)) /\
    pixels s' = replicate (Z.to_nat PIXEL_COUNT) rgb /\
    leds s' = replicate (Z.to_nat PIXEL_COUNT) rgb /\
    brightness s' = brightness s.
Proof.
  intros Hwf Hst Hcount. unfold wf_state, to_u16 in Hwf.
  rewrite Z.mod_small in Hwf by lia.
  destruct (zone_loop (S (Z.to_nat PIXEL_COUNT)) 0 PIXEL_COUNT color rgb s)
    as (s' & Hrun & Hb & Hev & Hfl & Hleds & Hlen & Hpx);
    [lia | exact Hst | lia | lia | lia |].
  exists s'. split; [exact Hrun |].
  assert (Hall : pixels s' = replicate (Z.to_nat PIXEL_COUNT) rgb).
  { apply list_eq. intros j. rewrite Hpx.
    case_bool_decide as Hj.
    - symmetry. apply lookup_replicate_2. lia.
    - rewrite (proj1 (lookup_replicate_None _ _ _)) by lia.
      apply lookup_ge_None. lia. }
  repeat split; try assumption. now rewrite Hleds.
Qed.

(** X8.  A pixel set by [setPixelColor] at an index inside the array is not
    displayed until [showPixels]: [setPixelColor] leaves the LEDs as they
    were, and the following [showPixels] makes that LED show the staged
    colour and every other LED what the frame buffer held. *)
Theorem staged_pixel_shown_by_flush (index color : Z) (rgb : RgbColor)
  (s : State) :
  staged (brightness s) color = Some rgb ->
  0 <= index < Z.of_nat (length (pixels s)) ->
  index < 65536 ->
  exists s1 s2,
    setPixelColor index color s = Done s1 /\
    leds s1 = leds s /\
    showPixels s1 = Done s2 /\
    leds s2 !! Z.to_nat index = Some rgb /\
    (forall j : nat, j <> Z.to_nat index -> leds s2 !! j = pixels s !! j) /\
    pixels s2 = leds s2.
Proof.
  intros Hst Hidx H16. rewrite setPixelColor_staged, Hst.
  eexists. eexists. split; [reflexivity |]. split; [reflexivity |].
  split; [reflexivity |].
  unfold strip_SetPixelColor, strip_Show, to_u16. simpl.
  rewrite Z.mod_small by lia.
  destruct (Z.ltb_spec index (Z.of_nat (length (pixels s)))); [| lia].
  repeat split.
  - apply list_lookup_insert_eq. lia.
  - intros j Hj. now apply list_lookup_insert_ne.
Qed.

(** X9.  The clamp of [setBrightness] is idempotent: after any call, a
    further call with the brightness just stored changes nothing.  The
    start-up brightness 0.0 is not a value it stores: no argument makes
    [setBrightness] store a zero, and at start-up [setBrightness] of the
    brightness in place (0.0) stores the [float] nearest to 0.01. *)
Theorem setBrightness_fixed_point (value : spec_float) (s : State) :
  F32.valid value = true ->
  exists s1,
    setBrightness value s = Done s1 /\
    setBrightness (brightness s1) s1 = Done s1 /\
    (forall sign, brightness s1 <> S754_zero sign) /\
    setBrightness (brightness boot) boot
    = Done (mkState brightness_min (pixels boot) (leds boot) (events boot)).
Proof.
  intros Hv. rewrite (setBrightness_stores value s Hv).
  eexists. split; [reflexivity |]. cbn [brightness].
  split; [| split; [| reflexivity]].
  - destruct (SFltb (F64.of_float value) F64.lit_0_01) eqn:Hlo;
      [reflexivity |].
    destruct (SFltb F64.lit_0_8 (F64.of_float value)) eqn:Hhi;
      [reflexivity |].
    rewrite (setBrightness_stores value _ Hv). cbn [pixels leds events].
    now rewrite Hlo, Hhi.
  - intros sign.
    destruct (SFltb (F64.of_float value) F64.lit_0_01) eqn:Hlo;
      [discriminate |].
    destruct (SFltb F64.lit_0_8 (F64.of_float value)) eqn:Hhi;
      [discriminate |].
    intros ->. destruct sign; discriminate.
Qed.

Lemma scale_nan (c : Z) : scale c S754_nan = None.
Proof. unfold scale, F32.mul. now destruct (F32.of_Z c). Qed.

Lemma setPixelColor_nan (num color : Z) (s : State) :
  brightness s = S754_nan -> setPixelColor num color s = Undefined.
Proof.
  intros Hb. rewrite setPixelColor_staged, Hb. unfold staged.
  now rewrite scale_nan.
Qed.

(** X10.  [setBrightness] stores a NaN argument as it is; from then on
    [setPixelColor] and the three zone setters have no defined behaviour
    for any index and colour, and with at least one pixel neither have
    [clearAllPixels], [setAllPixels] and [rainbowCycle]. *)
Theorem nan_brightness_is_undefined (s : State) :
  exists s1,
    setBrightness S754_nan s = Done s1 /\
    brightness s1 = S754_nan /\
    forall num color,
      setPixelColor num color s1 = Undefined /\
      setLargeRingColor color s1 = Undefined /\
      setSmallRingColor color s1 = Undefined /\
      setStripColor color s1 = Undefined /\
      (0 < PIXEL_COUNT ->
       clearAllPixels s1 = Undefined /\
       setAllPixels color s1 = Undefined /\
       forall fuel wait, rainbowCycle (S fuel) wait s1 = Undefined).
Proof.
  eexists. split; [reflexivity |]. split; [reflexivity |].
  intros num color.
  set (s1 := mkState _ _ _ _).
  assert (Hb : brightness s1 = S754_nan) by reflexivity.
  split; [now apply setPixelColor_nan |].
  assert (Hloop : forall fuel bound index col,
             0 < bound ->
             for_lt (S fuel) id 0 bound
               (fun i => setPixelColor (index i) (col i)) s1 = Undefined).
  { intros fuel bound index col Hbound. rewrite for_lt_unfold.
    destruct (Z.ltb_spec 0 bound); [| lia].
    unfold andThen. now rewrite setPixelColor_nan. }
  unfold setLargeRingColor, setSmallRingColor, setStripColor, clearAllPixels,
    setAllPixels.
  repeat split; try (unfold andThen at 1; now rewrite Hloop by lia).
  intros fuel wait. unfold rainbowCycle. rewrite for_lt_unfold.
  change (0 <? 256 * 3) with true. cbv iota.
  unfold andThen at 1. unfold andThen at 1. rewrite for_lt_unfold.
  destruct (Z.ltb_spec 0 PIXEL_COUNT); [| lia].
  unfold andThen at 1. now rewrite setPixelColor_nan.
Qed.
End Driver.

Lemma pixel_writes_app (es es' : list Event) :
  pixel_writes (es ++ es') = (pixel_writes es + pixel_writes es')%nat.
Proof. unfold pixel_writes. now rewrite List.filter_app, length_app. Qed.

Lemma total_delay_app (es es' : list Event) :
  total_delay (es ++ es') = total_delay es + total_delay es'.
Proof.
  unfold total_delay. induction es as [| e es IH]; [reflexivity |].
  simpl. rewrite IH. destruct e; lia.
Qed.

Section Rainbow.
Context {board : Board}.

Lemma paint_ext index rgb rgb' ks s :
  (forall k, k ∈ ks -> rgb k = rgb' k) ->
  paint index rgb ks s = paint index rgb' ks s.
Proof.
  revert s. induction ks as [| k ks IH]; intros s Hext; [reflexivity |].
  unfold paint in *. simpl. rewrite (Hext k) by apply list_elem_of_here.
  apply IH. intros k' Hk'. apply Hext. now apply list_elem_of_further.
Qed.

(** [rainbowCycle] as 768 steps in a row. *)
Lemma rainbowCycle_run (fuel : nat) (wait : Z) (s : State) :
  PIXEL_COUNT <= 65535 ->
  (Z.to_nat PIXEL_COUNT < fuel)%nat ->
  scalable (brightness s) = true ->
  rainbowCycle fuel wait s
  = Done (foldl (fun s0 j => rainbow_step (brightness s) wait j s0) s
                (seqZ 0 768)).
Proof.
  intros Hcount Hfuel Hsc. set (b := brightness s).
  set (col := fun j i : Z =>
         Colors.wheel
           (to_u8 (Z.land (Z.quot (i * 256) PIXEL_COUNT + j) 255))).
  destruct (for_lt_from to_u16 (256 * 3)
              (fun j =>
                 for_lt fuel to_u16 0 PIXEL_COUNT
                   (fun i => setPixelColor i (col j i))
                 >>> showPixels >>> lift (delay wait))
              (rainbow_step b wait) (fun s0 => brightness s0 = b))
    with (fuel := 769%nat) (i := 0) (s := s) as [Hrun _].
  - intros k Hk. unfold to_u16. apply Z.mod_small. lia.
  - intros j s0 Hj Hb0. unfold andThen at 1.
    rewrite (paint_loop fuel to_u16 PIXEL_COUNT (fun i => i) (col j)
               (fun i => adjusted b (col j i)) s0).
    + unfold rainbow_step.
      rewrite (paint_ext _ (rainbow_rgb b j) (fun i => adjusted b (col j i))).
      * split; [reflexivity |]. simpl. now rewrite paint_brightness.
      * intros i Hi. apply elem_of_seqZ in Hi. unfold rainbow_rgb, col.
        now rewrite wheel_position by lia.
    + intros k Hk. unfold to_u16. apply Z.mod_small. lia.
    + intros k Hk. rewrite Hb0. now apply staged_scalable.
    + exact Hfuel.
  - lia.
  - simpl. lia.
  - reflexivity.
  - exact Hrun.
Qed.

Lemma rainbow_step_events b wait j s :
  events (rainbow_step b wait j s) = events s ++ rainbow_frame b wait j.
Proof.
  unfold rainbow_step, delay, strip_Show, emit. simpl.
  rewrite paint_events, <- 2 List.app_assoc. reflexivity.
Qed.

Lemma rainbow_frame_period b wait j :
  rainbow_frame b wait (256 + j) = rainbow_frame b wait j.
Proof.
  unfold rainbow_frame. f_equal. apply map_ext. intros i.
  do 3 f_equal. rewrite Z.add_assoc, (Z.add_comm _ 256), <- Z.add_assoc.
  rewrite <- (Z.mul_1_l 256) at 1. now rewrite Z.add_comm, Z.mod_add by lia.
Qed.

Lemma rainbow_frames_shift b wait m :
  map (rainbow_frame b wait) (seqZ (256 + m) 256)
  = map (rainbow_frame b wait) (seqZ m 256).
Proof.
  rewrite <- fmap_add_seqZ. change (fmap (Z.add 256)) with (map (Z.add 256)).
  rewrite map_map. apply map_ext. intros j. apply rainbow_frame_period.
Qed.

Lemma rainbow_three_turns b wait :
  concat (map (rainbow_frame b wait) (seqZ 0 768))
  = rainbow_turn b wait ++ rainbow_turn b wait ++ rainbow_turn b wait.
Proof.
  unfold rainbow_turn.
  change 768 with (256 + (256 + 256)).
  rewrite (seqZ_app 0 256 (256 + 256)), (seqZ_app (0 + 256) 256 256) by lia.
  rewrite !map_app, !concat_app.
  change (seqZ (0 + 256 + 256) 256) with (seqZ (256 + 256) 256).
  rewrite (rainbow_frames_shift b wait 256).
  change (seqZ (0 + 256) 256) with (seqZ (256 + 0) 256).
  change (seqZ 256 256) with (seqZ (256 + 0) 256).
  now rewrite (rainbow_frames_shift b wait 0).
Qed.

Lemma rainbow_frame_counts b wait j :
  pixel_writes (rainbow_frame b wait j) = Z.to_nat PIXEL_COUNT /\
  total_delay (rainbow_frame b wait j) = wait /\
  flushes (rainbow_frame b wait j) = 1%nat.
Proof.
  unfold rainbow_frame.
  rewrite pixel_writes_app, total_delay_app, flushes_app.
  rewrite flushes_set_pixels by reflexivity.
  assert (Hw : forall ks,
             pixel_writes
               (map (fun i =>
                  EvSetPixelColor i
                    (adjusted b
                       (Colors.wheel ((i * 256 / PIXEL_COUNT + j) mod 256))))
                  ks) = length ks
             /\ total_delay
                  (map (fun i =>
                     EvSetPixelColor i
                       (adjusted b
                          (Colors.wheel
                             ((i * 256 / PIXEL_COUNT + j) mod 256))))
                     ks) = 0).
  { induction ks as [| k ks [IH1 IH2]]; [now split |].
    split; [unfold pixel_writes in *; simpl; now rewrite IH1 | exact IH2]. }
  destruct (Hw (seqZ 0 PIXEL_COUNT)) as [-> ->]. rewrite length_seqZ.
  unfold pixel_writes, total_delay, flushes. simpl. repeat split; lia.
Qed.

Lemma rainbow_counts b wait (js : list Z) :
  pixel_writes (concat (map (rainbow_frame b wait) js))
    = (length js * Z.to_nat PIXEL_COUNT)%nat /\
  total_delay (concat (map (rainbow_frame b wait) js))
    = Z.of_nat (length js) * wait.
Proof.
  induction js as [| j js [IH1 IH2]]; [now split |].
  cbn [map concat length].
  rewrite pixel_writes_app, total_delay_app, IH1, IH2.
  destruct (rainbow_frame_counts b wait j) as (-> & -> & _). split; lia.
Qed.
End Rainbow.

Section Rainbow2.
Context {board : Board}.

Lemma rainbow_events (b : spec_float) (wait : Z) (js : list Z) (s : State) :
  events (foldl (fun s0 j => rainbow_step b wait j s0) s js)
  = events s ++ concat (map (rainbow_frame b wait) js).
Proof.
  apply (events_foldl (rainbow_step b wait) (rainbow_frame b wait)).
  intros j s0. apply rainbow_step_events.
Qed.

(** X11.  The 768 steps of [rainbowCycle] are three identical turns: the
    bus calls of steps 0..255, three times over. *)
Theorem rainbowCycle_three_turns (fuel : nat) (wait : Z) (s : State) :
  PIXEL_COUNT <= 65535 ->
  (Z.to_nat PIXEL_COUNT < fuel)%nat ->
  scalable (brightness s) = true ->
  exists s',
    rainbowCycle fuel wait s = Done s' /\
    events s' =
      events s ++ rainbow_turn (brightness s) wait
               ++ rainbow_turn (brightness s) wait
               ++ rainbow_turn (brightness s) wait.
Proof.
  intros Hcount Hfuel Hsc.
  rewrite (rainbowCycle_run fuel wait s Hcount Hfuel Hsc).
  eexists. split; [reflexivity |].
  now rewrite rainbow_events, rainbow_three_turns.
Qed.

(** X12.  [rainbowCycle wait] makes 768 * [PIXEL_COUNT] pixel writes and
    delays for 768 * [wait] in all. *)
Theorem rainbowCycle_totals (fuel : nat) (wait : Z) (s : State) :
  PIXEL_COUNT <= 65535 ->
  (Z.to_nat PIXEL_COUNT < fuel)%nat ->
  scalable (brightness s) = true ->
  exists s',
    rainbowCycle fuel wait s = Done s' /\
    pixel_writes (events s')
      = (pixel_writes (events s) + 768 * Z.to_nat PIXEL_COUNT)%nat /\
    total_delay (events s') = total_delay (events s) + 768 * wait.
Proof.
  intros Hcount Hfuel Hsc.
  rewrite (rainbowCycle_run fuel wait s Hcount Hfuel Hsc).
  eexists. split; [reflexivity |].
  rewrite rainbow_events, pixel_writes_app, total_delay_app.
  destruct (rainbow_counts (brightness s) wait (seqZ 0 768)) as [-> ->].
  rewrite length_seqZ. split; [| lia].
  change (Z.to_nat 768) with 768%nat. reflexivity.
Qed.

Lemma rainbow_step_length b wait j s :
  length (pixels (rainbow_step b wait j s)) = length (pixels s).
Proof. unfold rainbow_step. simpl. apply paint_length. Qed.

Lemma rainbow_steps_length b wait js s :
  length (pixels (foldl (fun s0 j => rainbow_step b wait j s0) s js))
  = length (pixels s).
Proof.
  revert s. induction js as [| j js IH]; intros s; [reflexivity |].
  simpl. now rewrite IH, rainbow_step_length.
Qed.

(** One pass over pixels 0..n-1 rewrites exactly those. *)
Lemma paint_pass_lookup (rgb : Z -> RgbColor) (s : State) (k : nat) (j : nat) :
  (k <= length (pixels s))%nat -> Z.of_nat k <= 65536 ->
  pixels (paint (fun i => i) rgb (seqZ 0 (Z.of_nat k)) s) !! j
  = if bool_decide (j < k)%nat then Some (rgb (Z.of_nat j))
    else pixels s !! j.
Proof.
  induction k as [| k IH]; intros Hk H16; [reflexivity |].
  rewrite seqZ_S, paint_snoc. change (0 + Z.of_nat k) with (Z.of_nat k).
  unfold strip_SetPixelColor. cbn [pixels emit].
  rewrite paint_length. unfold to_u16. rewrite Z.mod_small by lia.
  destruct (Z.ltb_spec (Z.of_nat k) (Z.of_nat (length (pixels s)))); [| lia].
  rewrite Nat2Z.id.
  destruct (decide (j = k)) as [-> | Hne].
  - rewrite list_lookup_insert_eq by (rewrite paint_length; lia).
    now rewrite bool_decide_eq_true_2 by lia.
  - rewrite list_lookup_insert_ne by lia. rewrite IH by lia.
    repeat case_bool_decide; try lia; reflexivity.
Qed.

Lemma paint_pass_all (rgb : Z -> RgbColor) (s : State) (n : Z) :
  Z.of_nat (length (pixels s)) = n -> n <= 65536 ->
  pixels (paint (fun i => i) rgb (seqZ 0 n) s) = rgb <$> seqZ 0 n.
Proof.
  intros Hlen H16. apply list_eq. intros j.
  rewrite <- Hlen at 1. rewrite paint_pass_lookup by lia.
  rewrite list_lookup_fmap.
  case_bool_decide as Hj.
  - rewrite lookup_seqZ_lt by lia. reflexivity.
  - rewrite lookup_seqZ_ge by lia. apply lookup_ge_None. lia.
Qed.

(** X13.  When [rainbowCycle] returns, frame buffer and LEDs hold the
    colours of the last step: pixel [i] shows
    [wheel ((i * 256 / PIXEL_COUNT + 767) mod 256)], scaled and
    gamma-corrected. *)
Theorem rainbowCycle_last_frame (fuel : nat) (wait : Z) (s : State) :
  wf_state s ->
  0 <= PIXEL_COUNT <= 65535 ->
  (Z.to_nat PIXEL_COUNT < fuel)%nat ->
  scalable (brightness s) = true ->
  exists s',
    rainbowCycle fuel wait s = Done s' /\
    leds s' = rainbow_rgb (brightness s) 767 <$> seqZ 0 PIXEL_COUNT /\
    pixels s' = leds s' /\
    brightness s' = brightness s.
Proof.
  intros Hwf Hcount Hfuel Hsc.
  rewrite (rainbowCycle_run fuel wait s (proj2 Hcount) Hfuel Hsc).
  eexists. split; [reflexivity |].
  change 768 with (767 + 1). rewrite (seqZ_app 0 767 1) by lia.
  rewrite foldl_app. change (seqZ (0 + 767) 1) with [767]. cbn [foldl].
  set (prev := foldl _ s (seqZ 0 767)).
  assert (Hlen : Z.of_nat (length (pixels prev)) = PIXEL_COUNT).
  { unfold prev. rewrite rainbow_steps_length, Hwf. unfold to_u16.
    rewrite Z.mod_small by lia. lia. }
  unfold rainbow_step, delay, strip_Show, emit. cbn [leds pixels brightness].
  rewrite paint_pass_all by (assumption || lia).
  repeat split. rewrite paint_brightness. unfold prev.
  clear. generalize (seqZ 0 767). intros js.
  induction js as [| j js IH] using rev_ind; [reflexivity |].
  rewrite foldl_app. cbn [foldl]. unfold rainbow_step at 1. simpl.
  now rewrite paint_brightness.
Qed.

(** X14.  With [PIXEL_COUNT] above 65535 the [uint16_t] loop variable
    wraps before it reaches the bound and [rainbowCycle] never returns. *)
Theorem rainbowCycle_never_returns (s : State) :
  65535 < PIXEL_COUNT ->
  scalable (brightness s) = true ->
  forall fuel wait s', rainbowCycle fuel wait s <> Done s'.
Proof.
  intros Hcount Hsc fuel wait s'.
  now rewrite (rainbowCycle_spins fuel wait s Hcount Hsc).
Qed.
End Rainbow2.

Lemma leds_follow_flushes_stable (s0 : State) :
  bus_stable (leds_follow_flushes s0).
Proof.
  intros s [Hle Heq]. unfold leds_follow_flushes, strip_SetPixelColor,
    strip_Show, strip_Begin, delay, emit. cbn [events leds].
  repeat split; intros; rewrite ?flushes_app in *;
    unfold flushes in *; simpl in *; try lia; apply Heq; lia.
Qed.

Section Invariants.
Context {board : Board}.

Lemma run_keeps (P : State -> Prop) (c : Call) :
  bus_stable P ->
  (forall b s, P s -> P (mkState b (pixels s) (leds s) (events s))) ->
  keeps P (run c).
Proof.
  intros Hstable Hb. destruct (is_setBrightness c) eqn:Hc.
  - destruct c; try discriminate. intros s s' [= <-]. apply Hb.
  - now apply keeps_run.
Qed.

Lemma run_all_keeps (P : State -> Prop) (cs : list Call) :
  bus_stable P ->
  (forall b s, P s -> P (mkState b (pixels s) (leds s) (events s))) ->
  keeps P (run_all cs).
Proof.
  intros Hstable Hb. induction cs as [| c cs IH]; simpl.
  - now intros s s' [= <-].
  - apply keeps_andThen; [now apply run_keeps | exact IH].
Qed.

(** X15.  From start-up, whatever calls are made, as long as
    [setBrightness] is not given NaN no call has undefined behaviour, the
    brightness stays 0.0 or within the clamp bounds, and the frame buffer
    keeps its size. *)
Theorem no_undefined_behaviour (cs : list Call) :
  forallb numeric_call cs = true ->
  run_all cs boot <> Undefined /\
  forall s, run_all cs boot = Done s ->
            brightness_ok s /\ scalable (brightness s) = true /\ wf_state s.
Proof.
  intros Hcs. destruct (run_all_safe cs Hcs boot boot_ok) as [Hdef Hok].
  split; [exact Hdef |]. intros s Hrun.
  split; [now apply Hok |]. split.
  - apply brightness_ok_scalable. now apply Hok.
  - apply (run_all_keeps wf_state cs wf_state_stable) with (s := boot);
      [now intros b s0 H | exact Hrun | apply boot_wf].
Qed.

(** X16.  Whatever calls are made, the number of flushes never goes down,
    and if it has not gone up the LEDs show what they showed before. *)
Theorem leds_change_only_on_flush (cs : list Call) (s s' : State) :
  run_all cs s = Done s' ->
  (flushes (events s) <= flushes (events s'))%nat /\
  (flushes (events s') = flushes (events s) -> leds s' = leds s).
Proof.
  intros Hrun.
  apply (run_all_keeps (leds_follow_flushes s) cs
           (leds_follow_flushes_stable s)) with (s := s);
    [now intros b s0 H | exact Hrun | split; [lia | reflexivity]].
Qed.

(** X17.  Setting the large ring, then the small ring, then the strip
    flushes three times and leaves each zone in its own colour (where
    zones overlap, the later call wins) and every other pixel as it
    was. *)
Theorem zones_compose (c1 c2 c3 : Z) (rgb1 rgb2 rgb3 : RgbColor) (s : State) :
  wf_state s ->
  staged (brightness s) c1 = Some rgb1 ->
  staged (brightness s) c2 = Some rgb2 ->
  staged (brightness s) c3 = Some rgb3 ->
  0 <= LARGE_RING_OFFSET /\ LARGE_RING_OFFSET + 24 <= to_u16 PIXEL_COUNT ->
  0 <= SMALL_RING_OFFSET /\ SMALL_RING_OFFSET + 12 <= to_u16 PIXEL_COUNT ->
  0 <= STRIP_OFFSET /\ STRIP_OFFSET + 8 <= to_u16 PIXEL_COUNT ->
  exists s',
    (setLargeRingColor c1 >>> setSmallRingColor c2 >>> setStripColor c3) s
      = Done s' /\
    flushes (events s') = (flushes (events s) + 3)%nat /\
    leds s' = pixels s' /\
    forall j : nat,
      pixels s' !! j =
        if bool_decide (STRIP_OFFSET <= Z.of_nat j < STRIP_OFFSET + 8)
        then Some rgb3
        else if bool_decide
                  (SMALL_RING_OFFSET <= Z.of_nat j < SMALL_RING_OFFSET + 12)
             then Some rgb2
             else if bool_decide
                       (LARGE_RING_OFFSET <= Z.of_nat j
                        < LARGE_RING_OFFSET + 24)
                  then Some rgb1
                  else pixels s !! j.
Proof.
  intros Hwf H1 H2 H3 HL HS HT. unfold wf_state in Hwf.
  assert (Hlen : Z.of_nat (length (pixels s)) = to_u16 PIXEL_COUNT).
  { rewrite Hwf. apply Z2Nat.id. unfold to_u16.
    apply Z.mod_pos_bound. lia. }
  assert (Hmax : to_u16 PIXEL_COUNT < 65536)
    by (unfold to_u16; apply Z.mod_pos_bound; lia).
  destruct (zone_loop 25 LARGE_RING_OFFSET 24 c1 rgb1 s)
    as (s1 & Hr1 & Hb1 & _ & Hf1 & _ & Hl1 & Hp1);
    [simpl; lia | exact H1 | lia | lia | lia |].
  destruct (zone_loop 13 SMALL_RING_OFFSET 12 c2 rgb2 s1)
    as (s2 & Hr2 & Hb2 & _ & Hf2 & _ & Hl2 & Hp2);
    [simpl; lia | now rewrite Hb1 | lia | lia | lia |].
  destruct (zone_loop 9 STRIP_OFFSET 8 c3 rgb3 s2)
    as (s3 & Hr3 & Hb3 & _ & Hf3 & Hleds3 & Hl3 & Hp3);
    [simpl; lia | now rewrite Hb2, Hb1 | lia | lia | lia |].
  exists s3. unfold setLargeRingColor, setSmallRingColor, setStripColor.
  unfold andThen at 1. rewrite Hr1. unfold andThen at 1. rewrite Hr2.
  split; [exact Hr3 |]. split; [lia |]. split; [exact Hleds3 |].
  intros j. rewrite Hp3, Hp2, Hp1. reflexivity.
Qed.
End Invariants.

(** ** The further properties on concrete boards *)

Lemma scale_never_brightens_witness :
  exists t, scale 200 (brightness lit_state) = Some t /\ 0 <= t <= 200.
Proof.
  apply (scale_never_brightens lit_state 200); [| lia].
  right. split; reflexivity.
Defined.

Lemma setPixelColor_of_createColor_witness :
  exists r g b,
    scale 255 (brightness lit_state) = Some r /\ 0 <= r <= 255 /\
    scale 128 (brightness lit_state) = Some g /\ 0 <= g <= 128 /\
    scale 0 (brightness lit_state) = Some b /\ 0 <= b <= 0 /\
    setPixelColor (board := clock_board) 5 (Colors.createColor 255 128 0)
      lit_state
    = Done (strip_SetPixelColor 5 (mkRgb r g b) lit_state).
Proof.
  apply (setPixelColor_of_createColor (board := clock_board) 5 255 128 0
           lit_state); try lia.
  right. split; reflexivity.
Defined.

Lemma setAllPixels_fills_witness :
  exists s',
    setAllPixels (board := clock_board) 16744448 lit_state = Done s' /\
    events s' =
      events lit_state
      ++ map (fun i => EvSetPixelColor i (mkRgb 127 64 0)) (seqZ 0 44)
      ++ [EvShow] /\
    flushes (events s') = S (flushes (events lit_state)) /\
    pixels s' = replicate 44 (mkRgb 127 64 0) /\
    leds s' = replicate 44 (mkRgb 127 64 0) /\
    brightness s' = brightness lit_state.
Proof.
  apply (setAllPixels_fills (board := clock_board) 16744448 (mkRgb 127 64 0)
           lit_state);
    [reflexivity | reflexivity | vm_compute; split; discriminate].
Defined.

Lemma staged_pixel_shown_by_flush_witness :
  exists s1 s2,
    setPixelColor (board := clock_board) 5 16744448 lit_state = Done s1 /\
    leds s1 = leds lit_state /\
    showPixels s1 = Done s2 /\
    leds s2 !! Z.to_nat 5 = Some (mkRgb 127 64 0) /\
    (forall j : nat,
       j <> Z.to_nat 5 -> leds s2 !! j = pixels lit_state !! j) /\
    pixels s2 = leds s2.
Proof.
  apply (staged_pixel_shown_by_flush (board := clock_board) 5 16744448
           (mkRgb 127 64 0) lit_state);
    [reflexivity | vm_compute; split; [discriminate | reflexivity]
    | reflexivity].
Defined.

Lemma setBrightness_fixed_point_witness :
  exists s1,
    setBrightness (F32.of_Z 5) lit_state = Done s1 /\
    setBrightness (brightness s1) s1 = Done s1 /\
    (forall sign, brightness s1 <> S754_zero sign) /\
    setBrightness (brightness (boot (board := clock_board)))
      (boot (board := clock_board))
    = Done (mkState brightness_min (pixels (boot (board := clock_board)))
              (leds (boot (board := clock_board)))
              (events (boot (board := clock_board)))).
Proof.
  apply (setBrightness_fixed_point (board := clock_board) (F32.of_Z 5)
           lit_state).
  reflexivity.
Defined.

Lemma rainbowCycle_three_turns_witness :
  exists s',
    rainbowCycle (board := clock_board) 45 10 lit_state = Done s' /\
    events s' =
      events lit_state
      ++ rainbow_turn (board := clock_board) half 10
      ++ rainbow_turn (board := clock_board) half 10
      ++ rainbow_turn (board := clock_board) half 10.
Proof.
  apply (rainbowCycle_three_turns (board := clock_board) 45 10 lit_state);
    [vm_compute; discriminate | vm_compute; lia | vm_compute; reflexivity].
Defined.

Lemma rainbowCycle_totals_witness :
  exists s',
    rainbowCycle (board := clock_board) 45 10 lit_state = Done s' /\
    pixel_writes (events s')
      = (pixel_writes (events lit_state) + 768 * Z.to_nat 44)%nat /\
    total_delay (events s') = total_delay (events lit_state) + 768 * 10.
Proof.
  apply (rainbowCycle_totals (board := clock_board) 45 10 lit_state);
    [vm_compute; discriminate | vm_compute; lia | vm_compute; reflexivity].
Defined.

Lemma rainbowCycle_last_frame_witness :
  exists s',
    rainbowCycle (board := clock_board) 45 10 lit_state = Done s' /\
    leds s' = rainbow_rgb (board := clock_board) half 767 <$> seqZ 0 44 /\
    pixels s' = leds s' /\
    brightness s' = brightness lit_state.
Proof.
  apply (rainbowCycle_last_frame (board := clock_board) 45 10 lit_state);
    [reflexivity | vm_compute; split; discriminate | vm_compute; lia
    | vm_compute; reflexivity].
Defined.

Lemma rainbowCycle_never_returns_witness :
  rainbowCycle (board := big_board) 100 10 lit_state <> Done lit_state.
Proof.
  apply (rainbowCycle_never_returns (board := big_board) lit_state);
    [reflexivity | vm_compute; reflexivity].
Defined.

Lemma no_undefined_behaviour_witness :
  run_all (board := clock_board)
    [CallSetBrightness half; CallInitPixels; CallSetAllPixels 16744448]
    (boot (board := clock_board)) <> Undefined /\
  forall s,
    run_all (board := clock_board)
      [CallSetBrightness half; CallInitPixels; CallSetAllPixels 16744448]
      (boot (board := clock_board)) = Done s ->
    brightness_ok s /\ scalable (brightness s) = true /\
    wf_state (board := clock_board) s.
Proof.
  apply (no_undefined_behaviour (board := clock_board)
           [CallSetBrightness half; CallInitPixels;
            CallSetAllPixels 16744448]).
  reflexivity.
Defined.

Lemma leds_change_only_on_flush_witness :
  (flushes (events (boot (board := clock_board)))
   <= flushes (events dark_state))%nat /\
  (flushes (events dark_state)
   = flushes (events (boot (board := clock_board))) ->
   leds dark_state = leds (boot (board := clock_board))).
Proof.
  apply (leds_change_only_on_flush (board := clock_board) dark_calls
           (boot (board := clock_board)) dark_state).
  vm_compute. reflexivity.
Defined.

Lemma zones_compose_witness :
  exists s',
    (setLargeRingColor (board := clock_board) 16744448
     >>> setSmallRingColor (board := clock_board) 255
     >>> setStripColor (board := clock_board) 65280) lit_state = Done s' /\
    flushes (events s') = (flushes (events lit_state) + 3)%nat /\
    leds s' = pixels s' /\
    forall j : nat,
      pixels s' !! j =
        if bool_decide (36 <= Z.of_nat j < 36 + 8)
        then Some (mkRgb 0 127 0)
        else if bool_decide (24 <= Z.of_nat j < 24 + 12)
             then Some (mkRgb 0 0 127)
             else if bool_decide (0 <= Z.of_nat j < 0 + 24)
                  then Some (mkRgb 127 64 0)
                  else pixels lit_state !! j.
Proof.
  apply (zones_compose (board := clock_board) 16744448 255 65280
           (mkRgb 127 64 0) (mkRgb 0 0 127) (mkRgb 0 127 0) lit_state);
    try reflexivity; vm_compute; split; discriminate.
Defined.
